(** * Verification of the multi-GPU OCR dispatcher of custom_langchain

    Shallow embedding of [src/chat_pdf.py] (the dispatcher [__main__] and the
    worker [process_pdf]) and of [Pix2TextParser.lazy_parse] from
    [src/langchain/document_loaders/parsers/pdf.py].

    Python [str] values are lists of Unicode code points ([list Z]).
    Effects (queue operations, file writes, environment updates) are
    recorded as event traces. *)

From Stdlib Require Import ZArith Lia String Ascii.
From stdpp Require Import base list gmap sets.

Open Scope Z_scope.

(** ** Python strings *)
Module PyStr.

Abbreviation pystr := (list Z).

(** A Python literal written with ASCII characters. *)
Definition lit (s : string) : pystr :=
  map (fun a => Z.of_nat (nat_of_ascii a)) (list_ascii_of_string s).

Definition SLASH : Z := 47.

(** [s.endswith(suf)] *)
Definition endswith (suf s : pystr) : bool :=
  bool_decide (suf `suffix_of` s).

(** [posixpath.join(a, b)] for two arguments. *)
Definition path_join (a b : pystr) : pystr :=
  if bool_decide ([SLASH] `prefix_of` b) then b
  else if bool_decide (a = []) || bool_decide ([SLASH] `suffix_of` a) then a ++ b
  else a ++ [SLASH] ++ b.

(** [posixpath.split(p)[1]]: the part after the last ['/']. *)
Fixpoint split_tail (p : pystr) : pystr :=
  match p with
  | [] => []
  | c :: r => if existsb (Z.eqb SLASH) r then split_tail r
              else if c =? SLASH then r else c :: r
  end.

End PyStr.
Import PyStr.

(** ** [json.dump] of a [str] (default [ensure_ascii=True]) and [json.loads]
    of a document holding a string. *)
Module Json.

(** ['{0:04x}'.format(n)] for [0 <= n < 0x10000]. *)
Definition hexdig (d : Z) : Z := if d <? 10 then 48 + d else 87 + d.
Definition hex4 (n : Z) : pystr :=
  [hexdig (n / 4096 mod 16); hexdig (n / 256 mod 16);
   hexdig (n / 16 mod 16); hexdig (n mod 16)].
Definition uesc (n : Z) : pystr := 92 :: 117 :: hex4 n.

(** [py_encode_basestring_ascii]: a character matched by
    the pattern [ESCAPE_ASCII] (a backslash, a double quote, or a character
    outside the printable ASCII range 32..126) is replaced through [ESCAPE_DCT] or as [\uXXXX]
    (a surrogate pair above the BMP); other characters are kept. *)
Definition escape_char (c : Z) : pystr :=
  if c =? 92 then [92; 92]
  else if c =? 34 then [92; 34]
  else if c =? 8 then [92; 98]
  else if c =? 12 then [92; 102]
  else if c =? 10 then [92; 110]
  else if c =? 13 then [92; 114]
  else if c =? 9 then [92; 116]
  else if (32 <=? c) && (c <=? 126) then [c]
  else if c <? 65536 then uesc c
  else let n := c - 65536 in
       uesc (Z.lor 55296 (Z.land (Z.shiftr n 10) 1023)) ++
       uesc (Z.lor 56320 (Z.land n 1023)).

Definition dumps (s : pystr) : pystr :=
  34 :: concat (map escape_char s) ++ [34].

(** Hex digit of [_decode_uXXXX] (only plain hex digits are modelled). *)
Definition hexval (c : Z) : option Z :=
  if (48 <=? c) && (c <=? 57) then Some (c - 48)
  else if (97 <=? c) && (c <=? 102) then Some (c - 87)
  else if (65 <=? c) && (c <=? 70) then Some (c - 55)
  else None.

Definition decode_u (l : pystr) : option (Z * pystr) :=
  match l with
  | a :: b :: c :: d :: r =>
      match hexval a, hexval b, hexval c, hexval d with
      | Some a', Some b', Some c', Some d' =>
          Some (a' * 4096 + b' * 256 + c' * 16 + d', r)
      | _, _, _, _ => None
      end
  | _ => None
  end.

(** [BACKSLASH] table of the decoder. *)
Definition simple_escape (e : Z) : option Z :=
  if e =? 34 then Some 34
  else if e =? 92 then Some 92
  else if e =? 47 then Some 47
  else if e =? 98 then Some 8
  else if e =? 102 then Some 12
  else if e =? 110 then Some 10
  else if e =? 114 then Some 13
  else if e =? 116 then Some 9
  else None.

(** [py_scanstring] with [strict=True], after the opening quote; [acc]
    holds the decoded characters in reverse. *)
Fixpoint scan (fuel : nat) (s acc : pystr) : option (pystr * pystr) :=
  match fuel with
  | O => None
  | S fuel' =>
    match s with
    | [] => None
    | c :: r =>
      if c =? 34 then Some (rev acc, r)
      else if c =? 92 then
        match r with
        | [] => None
        | e :: r' =>
          if e =? 117 then
            match decode_u r' with
            | None => None
            | Some (uni, r'') =>
              if (55296 <=? uni) && (uni <=? 56319) then
                match r'' with
                | b :: u :: r3 =>
                  if (b =? 92) && (u =? 117) then
                    match decode_u r3 with
                    | None => None
                    | Some (uni2, r4) =>
                      if (56320 <=? uni2) && (uni2 <=? 57343) then
                        scan fuel' r4
                          ((65536 + Z.lor (Z.shiftl (uni - 55296) 10) (uni2 - 56320)) :: acc)
                      else scan fuel' r'' (uni :: acc)
                    end
                  else scan fuel' r'' (uni :: acc)
                | _ => scan fuel' r'' (uni :: acc)
                end
              else scan fuel' r'' (uni :: acc)
            end
          else match simple_escape e with
               | Some ch => scan fuel' r' (ch :: acc)
               | None => None
               end
        end
      else if c <? 32 then None
      else scan fuel' r (c :: acc)
    end
  end.

Definition is_ws (c : Z) : bool := (c =? 32) || (c =? 9) || (c =? 10) || (c =? 13).

Fixpoint skip_ws (s : pystr) : pystr :=
  match s with
  | c :: r => if is_ws c then skip_ws r else s
  | [] => []
  end.

(** A Python [str] character that is a Unicode scalar value: a code point
    below 0x110000 that is not a surrogate. *)
Definition valid_char (c : Z) : Prop := 0 <= c < 1114112 /\ ~ (55296 <= c <= 57343).

(** [json.loads] restricted to documents whose value is a string. *)
Definition loads_str (doc : pystr) : option pystr :=
  match skip_ws doc with
  | c :: r =>
      if c =? 34 then
        match scan (S (length r)) r [] with
        | Some (v, rest) => if bool_decide (skip_ws rest = []) then Some v else None
        | None => None
        end
      else None
  | [] => None
  end.

End Json.

(** Name of the result artifact of an input path:
    [os.path.join("ocr_results", os.path.split(p)[1] + '.json')]
    (line 15 of [chat_pdf.py], also line 37). *)
Definition RESULTS_DIR : pystr := lit "ocr_results".
Definition artifact_path (p : pystr) : pystr :=
  path_join RESULTS_DIR (split_tail p ++ lit ".json").

(** ** The device worker [process_pdf(device, q)] *)
Module Worker.

Inductive event :=
| EPrint (msg : pystr)
| ESetEnv (key val : pystr)
| ENewLoader (path device : pystr)
| EGet (x : option pystr)
| ELoad (path : pystr)
| EWrite (path content : pystr).

Inductive outcome := Returned | Crashed | Blocked.

(** The extraction strategy [loader.load()] at a path: the [page_content]
    of every returned Document, or [None] when it raises. *)
Definition strategy := pystr -> option (list pystr).

(** [s = ''; for doc in documents: s += doc.page_content; s += '\n\n'] *)
Definition join_pages (docs : list pystr) : pystr :=
  fold_left (fun s d => (s ++ d) ++ [10; 10]) docs [].

(** What [with open(path, 'w') as f: ... json.dump(s, f)] (lines 15-20)
    does with the JSON text of [s] at an artifact path: [WOpenFails] when
    [open] raises (the directory [ocr_results] does not exist, nothing in
    the program creates it, or it is not writable): no file is created;
    [WDumpFails n] when [json.dump] raises after the first [n] characters
    of the text reached the file, which the [with] block then closes;
    [WOk] when the whole text is written. *)
Inductive write_result := WOpenFails | WDumpFails (n : nat) | WOk.
Definition filesystem := pystr -> pystr -> write_result.

(** The [while True] loop.  A channel is the sequence of values ever put on
    the queue; [q.get()] returns them in FIFO order and blocks on an empty
    queue.  A raised exception ends the process ([Crashed]).  [EWrite a c]
    records that the file [a] holds [c] when the [with] block ends.  The
    timing print of line 21 is not recorded. *)
Fixpoint worker_loop (load : strategy) (fs : filesystem) (q : list (option pystr))
  : list event * outcome :=
  match q with
  | [] => ([], Blocked)
  | None :: _ => ([EGet None], Returned)
  | Some p :: q' =>
      match load p with
      | None => ([EGet (Some p); ELoad p], Crashed)
      | Some docs =>
          let path := artifact_path p in
          let text := Json.dumps (join_pages docs) in
          match fs path text with
          | WOpenFails => ([EGet (Some p); ELoad p], Crashed)
          | WDumpFails n => ([EGet (Some p); ELoad p; EWrite path (take n text)], Crashed)
          | WOk =>
              let '(tr, o) := worker_loop load fs q' in
              (EGet (Some p) :: ELoad p :: EWrite path text :: tr, o)
          end
      end
  end.

Definition INIT_PDF : pystr := lit "./1685435898.9404118_herd-scharfstein.pdf".
Definition CUDA_VISIBLE_DEVICES : pystr := lit "CUDA_VISIBLE_DEVICES".

(** [loader_ok] tells whether [Pix2TextLoader(INIT_PDF, device=device)]
    (line 6) returns; when it raises, the worker ends before its loop. *)
Definition process_pdf (load : strategy) (fs : filesystem) (loader_ok : bool)
    (device : pystr) (q : list (option pystr)) : list event * outcome :=
  let pre := [EPrint (lit "Start ocr process on device : " ++ device);
              ESetEnv CUDA_VISIBLE_DEVICES device;
              ENewLoader INIT_PDF device] in
  if loader_ok then
    let '(tr, o) := worker_loop load fs q in (pre ++ tr, o)
  else (pre, Crashed).

(** The item [p] is processed to its end: its extraction returns and its
    artifact is written in full. *)
Definition processed (load : strategy) (fs : filesystem) (p : pystr) : Prop :=
  exists docs, load p = Some docs /\
    fs (artifact_path p) (Json.dumps (join_pages docs)) = WOk.

(** The items a worker took from its channel. *)
Fixpoint consumed (tr : list event) : list (option pystr) :=
  match tr with
  | [] => []
  | EGet x :: tr' => x :: consumed tr'
  | _ :: tr' => consumed tr'
  end.

End Worker.

(** ** The dispatcher: the [__main__] block of [chat_pdf.py] *)
Module Dispatcher.

Inductive mevent :=
| MNewQueue (k : nat)
| MSpawn (k : nat) (device : pystr)
| MPut (k : nat) (x : option pystr)
| MJoin (k : nat).

(** Queue [k] of [q_list] is the [k]-th channel; its contents are the
    values put on it, in order. *)
Abbreviation queues := (list (list (option pystr))).

Inductive main_result :=
| Aborted (ev : list mevent)
| Finished (ev : list mevent) (qs : queues) (workers : list (pystr * nat)).

Definition PDF_DIR : pystr := lit "/pdfs/".

(** Lines 36-37. *)
Definition select_pdfs (names : list pystr) (exists_ : pystr -> bool) : list pystr :=
  let pdf_files := map (path_join PDF_DIR) (List.filter (endswith (lit ".pdf")) names) in
  List.filter (fun f => negb (exists_ (artifact_path f))) pdf_files.

(** [devices.pop()]: removes and returns the last element. *)
Definition pop (l : list pystr) : option (pystr * list pystr) :=
  match last l with
  | Some x => Some (x, removelast l)
  | None => None
  end.

(** Lines 46-51: [for i in range(procs)]: a new queue, a worker bound to
    [devices.pop()] and to that queue, started. *)
Fixpoint spawn_loop (n i : nat) (devs : list pystr) (qs : queues)
    (ws : list (pystr * nat)) (ev : list mevent)
  : option (list pystr * queues * list (pystr * nat) * list mevent) :=
  match n with
  | O => Some (devs, qs, ws, ev)
  | S n' =>
      match pop devs with
      | None => None
      | Some (d, devs') =>
          spawn_loop n' (S i) devs' (qs ++ [[]]) (ws ++ [(d, i)])
            (ev ++ [MNewQueue i; MSpawn i d])
      end
  end.

(** [queue.put(x)] on queue [k]. *)
Definition put (k : nat) (x : option pystr) (qs : queues) : queues :=
  alter (fun q => q ++ [x]) k qs.

(** [zip(xs, cycle(c))]: the [i]-th pair takes [c[i mod len(c)]]; an empty
    [c] makes the cycle, and so the zip, empty. *)
Fixpoint zip_cycle {A B} (i : nat) (xs : list A) (c : list B) : list (A * B) :=
  match xs with
  | [] => []
  | x :: xs' =>
      match c !! (i mod length c)%nat with
      | Some b => (x, b) :: zip_cycle (S i) xs' c
      | None => []
      end
  end.

Definition put_step (st : queues * list mevent) (x : option pystr * nat)
  : queues * list mevent :=
  (put x.2 x.1 st.1, st.2 ++ [MPut x.2 x.1]).

(** Lines 53-54 ([q_list] holds the queue indices [0 .. procs-1]). *)
Definition distribute (files : list pystr) (qids : list nat) (st : queues * list mevent)
  : queues * list mevent :=
  fold_left put_step (map (fun '(f, k) => (Some f, k)) (zip_cycle 0 files qids)) st.

(** Lines 57-58. *)
Definition close (qids : list nat) (st : queues * list mevent) : queues * list mevent :=
  fold_left put_step (map (fun k => (None, k)) qids) st.

(** The whole block.  [listdir] is the result of [os.listdir("/pdfs/")]
    ([None] when it raises), [exists_] is [os.path.exists] and [devices] the
    list returned by [parse_command()]. *)
Definition main (listdir : option (list pystr)) (exists_ : pystr -> bool)
    (devices : list pystr) : main_result :=
  match listdir with
  | None => Aborted []
  | Some names =>
      let pdf_files := select_pdfs names exists_ in
      let procs := length devices in
      match spawn_loop procs 0 devices [] [] [] with
      | None => Aborted []
      | Some (_, qs, ws, ev) =>
          let qids := seq 0 procs in
          let '(qs1, ev1) := distribute pdf_files qids (qs, ev) in
          let '(qs2, ev2) := close qids (qs1, ev1) in
          Finished (ev2 ++ map MJoin qids) qs2 ws
      end
  end.

End Dispatcher.

(** ** [Pix2TextParser.lazy_parse] *)
Module Pix2Text.

(** One element of the list returned by [self.p2t(...)]. *)
Record out := { otype : pystr; otext : pystr }.

(** Lines 186-200: the text of one page. *)
Definition classify (acc : pystr * pystr * pystr) (o : out) : pystr * pystr * pystr :=
  let '(header_text, footer_text, body_text) := acc in
  if bool_decide (otype o = lit "Footer") then (header_text, footer_text ++ otext o, body_text)
  else if bool_decide (otype o = lit "Header") then (header_text ++ otext o, footer_text, body_text)
  else if bool_decide (otype o = lit "Reference") then (header_text, footer_text, body_text)
  else (header_text, footer_text, body_text ++ otext o).

Definition page_text (outs : list out) : pystr :=
  let '(header_text, footer_text, body_text) := fold_left classify outs ([], [], []) in
  header_text ++ [10; 10] ++ body_text ++ [10; 10] ++ footer_text ++ [10; 10].

(** [str(idx)] *)
Fixpoint digits (fuel n : nat) (acc : pystr) : pystr :=
  match fuel with
  | O => acc
  | S f =>
      let acc' := (48 + Z.of_nat (n mod 10)) :: acc in
      if (n <? 10)%nat then acc' else digits f (n / 10) acc'
  end.
Definition str_nat (n : nat) : pystr := digits (S n) n [].

(** [os.path.splitext(p)[0]] for a name without ['/']: the part before
    the last dot, unless only dots precede it. *)
Definition splitext_root (p : pystr) : pystr :=
  let DOT := 46 in
  match List.find (fun _ => true) (List.filter (fun i => bool_decide (p !! i = Some DOT))
                                     (rev (seq 0 (length p)))) with
  | Some i => if existsb (fun c => negb (c =? DOT)) (take i p) then take i p else p
  | None => p
  end.

Definition page_png (pdf_name : pystr) (idx : nat) : pystr :=
  pdf_name ++ lit "_page_" ++ str_nat idx ++ lit ".png".

Inductive pevent :=
| PSave (name : pystr)
| PRecognize (name : pystr)
| PRemove (name : pystr)
| PYield (page_content : pystr) (page : nat).

(** What loading page [idx] ([enumerate(doc)]), [page.get_pixmap(dpi=300)]
    and [pix.save(...)] (lines 180-182) do: [SaveFails kept] when one of
    them raises, [kept] telling whether a (partial) image file was left
    behind; [Saved] when the image is written. *)
Inductive save_result := SaveFails (kept : bool) | Saved.

(** The loop of lines 180-211 over the pages [idx, idx+1, ...] of the
    document, consumed to the end.  [save idx] is the rendering of page
    [idx]; [recog idx] is the result of [self.p2t] on its image ([None] when
    it raises, or when an element lacks its ['type'] or ['text'] key);
    [removes idx] tells whether [os.remove] (line 206) returns on the image,
    which it cannot when the file is missing; [fs] is the set of files of
    the working directory.  [PSave] records a saved image.  The [bool]
    tells whether the loop ran to its end. *)
Fixpoint parse_pages (save : nat -> save_result) (recog : nat -> option (list out))
    (removes : nat -> bool) (pdf_name : pystr)
    (idx n : nat) (fs : gset pystr) : list pevent * gset pystr * bool :=
  match n with
  | O => ([], fs, true)
  | S n' =>
      let png := page_png pdf_name idx in
      match save idx with
      | SaveFails kept => ([], if kept then {[png]} ∪ fs else fs, false)
      | Saved =>
          let fs1 := {[png]} ∪ fs in
          match recog idx with
          | None => ([PSave png; PRecognize png], fs1, false)
          | Some outs =>
              let only_text := page_text outs in
              if bool_decide (png ∈ fs1) && removes idx then
                let '(tr, fs3, ok) :=
                  parse_pages save recog removes pdf_name (S idx) n' (fs1 ∖ {[png]}) in
                (PSave png :: PRecognize png :: PRemove png :: PYield only_text (S idx) :: tr,
                 fs3, ok)
              else ([PSave png; PRecognize png], fs1, false)
          end
      end
  end.

(** [lazy_parse] on a document of [npages] pages at [file_path]; [opens]
    tells whether [import fitz] and [fitz.open(file_path)] (lines 173-176)
    return. *)
Definition lazy_parse (opens : bool) (save : nat -> save_result)
    (recog : nat -> option (list out)) (removes : nat -> bool) (npages : nat)
    (file_path : pystr) (fs : gset pystr) : list pevent * gset pystr * bool :=
  if opens then
    parse_pages save recog removes (splitext_root (split_tail file_path)) 0 npages fs
  else ([], fs, false).

End Pix2Text.

(** ** [parse_command()] and the start of [__main__] *)
Module Cli.

(** [s.split(sep)] for a one-character separator. *)
Fixpoint split_sep (sep : Z) (s : pystr) : list pystr :=
  match s with
  | [] => [[]]
  | c :: r =>
      if c =? sep then [] :: split_sep sep r
      else match split_sep sep r with
           | w :: ws => (c :: w) :: ws
           | [] => [[c]]
           end
  end.

(** [str(z)] for a Python [int]. *)
Definition str_int (z : Z) : pystr :=
  if z <? 0 then 45 :: Pix2Text.str_nat (Z.to_nat (- z)) else Pix2Text.str_nat (Z.to_nat z).

(** The [type] of [--on]: [lambda s: [str(int(item)) for item in s.split(',')]].
    [py_int] is the builtin [int] on a [str] ([None] when it raises
    [ValueError]); argparse turns that error into a usage error. *)
Definition parse_on (py_int : pystr -> option Z) (s : pystr) : option (list pystr) :=
  fold_right (fun item acc =>
                match py_int item, acc with
                | Some z, Some l => Some (str_int z :: l)
                | _, _ => None
                end) (Some []) (split_sep 44 s).

Inductive run_result :=
| ListdirFailed             (** [os.listdir] raised (line 36) *)
| UsageError                (** argparse rejected [--on] (line 39): exit status 2 *)
| LenTypeError              (** [--on] absent, [len(None)] raised (line 40) *)
| Ran (r : Dispatcher.main_result).

(** Lines 35-40, then the rest of [main].  [on] is the value given to
    [--on] on the command line, [None] when the option is absent. *)
Definition program (listdir : option (list pystr)) (exists_ : pystr -> bool)
    (py_int : pystr -> option Z) (on : option pystr) : run_result :=
  match listdir with
  | None => ListdirFailed
  | Some names =>
      match on with
      | None => LenTypeError
      | Some s =>
          match parse_on py_int s with
          | None => UsageError
          | Some devices => Ran (Dispatcher.main (Some names) exists_ devices)
          end
      end
  end.

End Cli.

(** ** The other parsers of [pdf.py] *)
Module Parsers.

(** The Python values met in Document metadata. *)
Inductive pyval :=
| VStr (s : pystr)
| VInt (z : Z)
| VBool (b : bool)
| VNone
| VOther.

(** [type(v) in [str, int]] ([type(True)] is [bool], not [int]). *)
Definition str_or_int (v : pyval) : bool :=
  match v with VStr _ | VInt _ => true | _ => false end.

(** A [dict] as its list of entries in insertion order. *)
Abbreviation pydict := (list (pystr * pyval)).

(** [d[k] = v]: an existing key keeps its place. *)
Fixpoint dict_set (k : pystr) (v : pyval) (d : pydict) : pydict :=
  match d with
  | [] => [(k, v)]
  | (k', v') :: d' => if bool_decide (k = k') then (k, v) :: d' else (k', v') :: dict_set k v d'
  end.

(** [d[k]] ([None] for a missing key). *)
Fixpoint dict_get (k : pystr) (d : pydict) : option pyval :=
  match d with
  | [] => None
  | (k', v) :: d' => if bool_decide (k = k') then Some v else dict_get k d'
  end.

(** A dict display [{k1: v1, ...}]. *)
Definition dict_of (l : list (pystr * pyval)) : pydict :=
  fold_left (fun d kv => dict_set kv.1 kv.2 d) l [].

(** [{k: m[k] for k in m if type(m[k]) in [str, int]}] *)
Definition meta_filter (m : pydict) : pydict :=
  fold_left (fun d k => match dict_get k m with
                        | Some v => if str_or_int v then dict_set k v d else d
                        | None => d
                        end) (map fst m) [].

(** [dict(base, **kw)] *)
Definition dict_kw (base kw : pydict) : pydict :=
  fold_left (fun d kv => dict_set kv.1 kv.2 d) kw (dict_of base).

Record document := { page_content : pystr; metadata : pydict }.

(** [yield from [Document(...) for page in pages]]: the list is built
    before the first Document is yielded, so a raising page yields
    nothing.  The result is the yielded Documents and whether the
    generator ended without raising. *)
Definition eager_docs {P} (make : P -> option document) (pages : list P)
  : list document * bool :=
  match fold_right (fun p acc => match make p, acc with
                                 | Some d, Some l => Some (d :: l)
                                 | _, _ => None
                                 end) (Some []) pages with
  | Some l => (l, true)
  | None => ([], false)
  end.

(** [PyPDFParser.lazy_parse]: [extract i] is [page.extract_text()] of page
    [i] ([None] when it raises). *)
Definition pypdf_parse (source : pyval) (extract : list (option pystr))
  : list document * bool :=
  eager_docs (fun '(page_number, t) =>
                (fun text => {| page_content := text;
                                metadata := dict_of [(lit "source", source);
                                                     (lit "page", VInt (Z.of_nat page_number))] |})
                <$> t)
             (zip (seq 0 (length extract)) extract).

(** A page of PyMuPDF or pdfplumber: its number attribute and the result
    of its text extraction. *)
Record page := { number : Z; get_text : option pystr }.

Definition merged_metadata (source : pyval) (num total : Z) (doc_meta : pydict) : pydict :=
  dict_kw [(lit "source", source); (lit "file_path", source);
           (lit "page", VInt num); (lit "total_pages", VInt total)]
          (meta_filter doc_meta).

(** [PyMuPDFParser.lazy_parse] ([page.number], [len(doc)]) and
    [PDFPlumberParser.lazy_parse] ([page.page_number], [len(doc.pages)]):
    the same comprehension over the pages. *)
Definition pymupdf_parse (source : pyval) (pages : list page) (doc_meta : pydict)
  : list document * bool :=
  eager_docs (fun p => (fun text => {| page_content := text;
                                       metadata := merged_metadata source (number p)
                                                     (Z.of_nat (length pages)) doc_meta |})
                       <$> get_text p) pages.

Definition pdfplumber_parse (source : pyval) (pages : list page) (doc_meta : pydict)
  : list document * bool :=
  eager_docs (fun p => (fun text => {| page_content := text;
                                       metadata := merged_metadata source (number p)
                                                     (Z.of_nat (length pages)) doc_meta |})
                       <$> get_text p) pages.

(** [PyPDFium2Parser.lazy_parse]: the handles opened and closed, and the
    Documents yielded. *)
Inductive revent :=
| ROpenReader
| RPage (i : nat)
| RTextPage (i : nat)
| RCloseTextPage (i : nat)
| RClosePage (i : nat)
| RYield (d : document)
| RCloseReader.

(** The [for] loop from page [i] on; [get_page i] tells whether
    [enumerate(pdf_reader)] obtains page [i] (pypdfium2 loads each page as
    the iteration reaches it, and raises when it cannot), [tp i] whether
    [page.get_textpage()] returns, [txt i] is [get_text_range()]. *)
Fixpoint pdfium_loop (source : pyval) (get_page tp : nat -> bool) (txt : nat -> option pystr)
    (i n : nat) : list revent * bool :=
  match n with
  | O => ([], true)
  | S n' =>
      if get_page i then
        if tp i then
          match txt i with
          | None => ([RPage i; RTextPage i], false)
          | Some content =>
              let d := {| page_content := content;
                          metadata := dict_of [(lit "source", source);
                                               (lit "page", VInt (Z.of_nat i))] |} in
              let '(tr, ok) := pdfium_loop source get_page tp txt (S i) n' in
              (RPage i :: RTextPage i :: RCloseTextPage i :: RClosePage i :: RYield d :: tr, ok)
          end
        else ([RPage i], false)
      else ([], false)
  end.

(** [pdf_reader = pypdfium2.PdfDocument(file_path, autoclose=True)], then
    [try: for ... finally: pdf_reader.close()]; [opens] tells whether the
    reader is created. *)
Definition pdfium_parse (source : pyval) (opens : bool) (get_page tp : nat -> bool)
    (txt : nat -> option pystr) (npages : nat) : list revent * bool :=
  if opens then
    let '(tr, ok) := pdfium_loop source get_page tp txt 0 npages in
    (ROpenReader :: tr ++ [RCloseReader], ok)
  else ([], false).

End Parsers.

(** ** Specification-side notions used in the statements *)
Module RoundRobin.

(** The items of [L] (counted from index [i]) whose index is [k] modulo [N],
    in their order in [L]. *)
Fixpoint share (N k i : nat) (L : list pystr) : list pystr :=
  match L with
  | [] => []
  | x :: L' => if (i mod N =? k)%nat then x :: share N k (S i) L' else share N k (S i) L'
  end.

End RoundRobin.

(** Observations on runs used in the statements. *)
Module Observe.

(** The artifacts a worker writes, with their contents, in order. *)
Definition writes (tr : list Worker.event) : list (pystr * pystr) :=
  omap (fun e => match e with Worker.EWrite a c => Some (a, c) | _ => None end) tr.

(** ASCII decimal digits and the value of a string of them. *)
Definition is_digit (c : Z) : bool := (48 <=? c) && (c <=? 57).
Definition digits_value (s : pystr) : Z := fold_left (fun a c => 10 * a + (c - 48)) s 0.

(** The artifact written for an item [p]: its path and its content. *)
Definition artifact_of (load : Worker.strategy) (p : pystr) : pystr * pystr :=
  (artifact_path p, Json.dumps (Worker.join_pages (default [] (load p)))).

(** The number of occurrences of the character [c] in [s]. *)
Definition count_char (c : Z) (s : pystr) : nat := length (List.filter (fun x => x =? c) s).

End Observe.

(** * Proofs *)

Import Worker Dispatcher Pix2Text RoundRobin Cli Parsers Observe.

Section Distribution.

Lemma fold_put_step_length ps st :
  length (fold_left put_step ps st).1 = length st.1.
Proof.
  revert st. induction ps as [|p ps IH]; intros st; simpl; [done|].
  rewrite IH. simpl. unfold put. apply length_alter.
Qed.

Lemma fold_put_step_lookup ps st k :
  (fold_left put_step ps st).1 !! k
  = (fun q => q ++ map fst (List.filter (fun p => (p.2 =? k)%nat) ps)) <$> st.1 !! k.
Proof.
  revert st. induction ps as [|[x k'] ps IH]; intros st; simpl.
  - destruct (st.1 !! k); simpl; by rewrite ?app_nil_r.
  - rewrite IH. simpl. unfold put.
    destruct (decide (k' = k)) as [->|Hne].
    + rewrite Nat.eqb_refl, list_lookup_alter_eq.
      destruct (st.1 !! k); simpl; by rewrite <- ?app_assoc.
    + rewrite list_lookup_alter_ne by done.
      apply Nat.eqb_neq in Hne. by rewrite Hne.
Qed.

Lemma zip_cycle_share (N : nat) (L : list pystr) (i k : nat) :
  (1 <= N)%nat ->
  map fst (List.filter (fun p => (p.2 =? k)%nat)
             (map (fun '(f, k) => (Some f, k)) (zip_cycle i L (seq 0 N))))
  = map Some (share N k i L).
Proof.
  intros HN. revert i. induction L as [|x L IH]; intros i; simpl; [done|].
  rewrite length_seq, lookup_seq_lt by (apply Nat.mod_upper_bound; lia).
  simpl. destruct (i mod N =? k)%nat; simpl; by rewrite IH.
Qed.

Lemma spawn_loop_shape (devs : list pystr) :
  forall i qs ws ev,
  spawn_loop (length devs) i devs qs ws ev
  = Some ([], qs ++ replicate (length devs) [],
          ws ++ zip (rev devs) (seq i (length devs)),
          ev ++ concat (zip_with (fun d k => [MNewQueue k; MSpawn k d])
                                  (rev devs) (seq i (length devs)))).
Proof.
  induction devs as [|d devs IH] using rev_ind; intros i qs ws ev.
  - simpl. by rewrite !app_nil_r.
  - rewrite length_app. simpl. rewrite Nat.add_1_r. simpl.
    unfold pop. rewrite last_snoc, removelast_last. rewrite IH.
    rewrite rev_unit. simpl. rewrite <- !app_assoc. simpl. done.
Qed.

Lemma distribute_lookup (L : list pystr) (N : nat) k ev0 :
  (1 <= N)%nat -> (k < N)%nat ->
  (distribute L (seq 0 N) (replicate N [], ev0)).1 !! k = Some (map Some (share N k 0 L)).
Proof.
  intros HN Hk. unfold distribute. rewrite fold_put_step_lookup. simpl.
  rewrite lookup_replicate_2 by done. simpl. by rewrite zip_cycle_share.
Qed.

Lemma distribute_length (L : list pystr) (N : nat) ev0 :
  length (distribute L (seq 0 N) (replicate N [], ev0)).1 = N.
Proof. unfold distribute. rewrite fold_put_step_length. simpl. apply length_replicate. Qed.

Lemma distribute_eq (L : list pystr) (N : nat) ev0 :
  (1 <= N)%nat ->
  (distribute L (seq 0 N) (replicate N [], ev0)).1
  = map (fun k => map Some (share N k 0 L)) (seq 0 N).
Proof.
  intros HN. apply list_eq. intros k.
  rewrite list_lookup_fmap.
  destruct (decide (k < N)%nat) as [Hk|Hk].
  - rewrite distribute_lookup by done. by rewrite lookup_seq_lt by done.
  - rewrite !lookup_ge_None_2; [done| |]; rewrite ?length_seq, ?distribute_length; lia.
Qed.

End Distribution.

Section Share.

Variable N : nat.
Hypothesis HN : (1 <= N)%nat.

Lemma mod_same_offset i D :
  (D < N)%nat -> ((i + D) mod N = i mod N)%nat -> D = 0%nat.
Proof.
  intros HD Hm.
  pose proof (Nat.div_mod_eq i N) as E1.
  pose proof (Nat.div_mod_eq (i + D) N) as E2.
  rewrite Hm in E2.
  set (q1 := (i / N)%nat) in *. set (q2 := ((i + D) / N)%nat) in *.
  destruct (Nat.le_gt_cases q2 q1); nia.
Qed.

Lemma share_lookup k (L : list pystr) :
  (k < N)%nat ->
  forall i D p, (D < N)%nat -> ((i + D) mod N = k)%nat ->
  share N k i L !! p = L !! (p * N + D)%nat.
Proof.
  intros Hk. induction L as [|x L IH]; intros i D p HD Hm; simpl; [done|].
  destruct (Nat.eqb_spec (i mod N) k) as [Hi|Hi].
  - assert (D = 0%nat) as -> by (apply (mod_same_offset i); lia).
    destruct p as [|p]; [done|].
    replace (S p * N + 0)%nat with (S (p * N + (N - 1))) by lia. simpl.
    apply IH; [lia|].
    replace (S i + (N - 1))%nat with (i + 1 * N)%nat by lia.
    rewrite Nat.Div0.mod_add. lia.
  - destruct D as [|D].
    { exfalso. apply Hi. by rewrite Nat.add_0_r in Hm. }
    rewrite (IH (S i) D p) by (try lia; by replace (S i + D)%nat with (i + S D)%nat by lia).
    replace (p * N + S D)%nat with (S (p * N + D)) by lia. done.
Qed.

Lemma share_sublist k i (L : list pystr) : share N k i L `sublist_of` L.
Proof.
  revert i. induction L as [|x L IH]; intros i; simpl; [constructor|].
  destruct (i mod N =? k)%nat; constructor; apply IH.
Qed.

Lemma concat_bucket {A} (ks : list nat) (r : nat) (x : A) (g : nat -> list A) :
  NoDup ks -> r ∈ ks ->
  concat (map (fun k => if (r =? k)%nat then x :: g k else g k) ks)
  ≡ₚ x :: concat (map g ks).
Proof.
  induction ks as [|k ks IH]; intros Hnd Hin; [set_solver|].
  apply NoDup_cons in Hnd as [Hk Hnd]. simpl.
  destruct (Nat.eqb_spec r k) as [->|Hne].
  - simpl.
    erewrite (map_ext_in _ g ks); [done|].
    intros k' Hk'. destruct (Nat.eqb_spec k k') as [->|]; [|done].
    exfalso. apply Hk. by apply list_elem_of_In.
  - rewrite IH by (done || set_solver). by rewrite Permutation_middle.
Qed.

Lemma share_perm (L : list pystr) i :
  concat (map (fun k => share N k i L) (seq 0 N)) ≡ₚ L.
Proof.
  revert i. induction L as [|x L IH]; intros i; simpl.
  - induction (seq 0 N); simpl; auto.
  - rewrite (concat_bucket (seq 0 N) (i mod N) x (fun k => share N k (S i) L)).
    + by rewrite IH.
    + apply NoDup_seq.
    + apply elem_of_seq. split; [lia|]. simpl. apply Nat.mod_upper_bound. lia.
Qed.

End Share.

Section MainShape.

Lemma filter_seq_single j n k :
  map fst (List.filter (fun p : option pystr * nat => (p.2 =? k)%nat)
             (map (fun k => (None, k)) (seq j n)))
  = if (j <=? k)%nat && (k <? j + n)%nat then [None] else [].
Proof.
  revert j. induction n as [|n IH]; intros j.
  - simpl. destruct (Nat.leb_spec j k), (Nat.ltb_spec k (j + 0)); simpl; lia || done.
  - cbn [seq map List.filter]. simpl snd.
    destruct (Nat.eqb_spec j k) as [->|Hne]; cbn [map fst]; rewrite IH.
    + destruct (Nat.leb_spec (S k) k); [lia|]. rewrite Nat.leb_refl. simpl.
      destruct (Nat.ltb_spec k (k + S n)); [done|lia].
    + destruct (Nat.leb_spec (S j) k), (Nat.ltb_spec k (S j + n)),
               (Nat.leb_spec j k), (Nat.ltb_spec k (j + S n)); simpl; done || lia.
Qed.

Lemma close_eq (qs : queues) ev :
  (close (seq 0 (length qs)) (qs, ev)).1 = map (fun q => q ++ [None]) qs.
Proof.
  apply list_eq. intros k. unfold close.
  rewrite fold_put_step_lookup, filter_seq_single, list_lookup_fmap. simpl.
  destruct (qs !! k) eqn:E; simpl; [|done].
  apply lookup_lt_Some in E.
  destruct (Nat.ltb_spec k (length qs)); [done|lia].
Qed.

(** The dispatcher's run: channel [k] holds the round-robin share [k] of the
    selected files followed by one sentinel; worker [k] is bound to queue [k]
    and to the device popped at step [k]. *)
Lemma main_shape names exists_ (devs : list pystr) :
  exists ev,
  main (Some names) exists_ devs
  = Finished ev
      (map (fun k => map Some (share (length devs) k 0 (select_pdfs names exists_)) ++ [None])
           (seq 0 (length devs)))
      (zip (rev devs) (seq 0 (length devs))).
Proof.
  unfold main. rewrite spawn_loop_shape. simpl.
  set (N := length devs). set (L := select_pdfs names exists_).
  set (ev0 := concat _).
  destruct (distribute L (seq 0 N) (replicate N [], ev0)) as [qs1 ev1] eqn:Ed.
  destruct (close (seq 0 N) (qs1, ev1)) as [qs2 ev2] eqn:Ec.
  eexists. do 2 f_equal.
  assert (Hlen : length qs1 = N).
  { by rewrite <- (distribute_length L N ev0), Ed. }
  replace qs2 with (close (seq 0 N) (qs1, ev1)).1 by (by rewrite Ec).
  rewrite <- Hlen at 1. rewrite close_eq.
  destruct (decide (1 <= N)%nat) as [HN|HN].
  - replace qs1 with (distribute L (seq 0 N) (replicate N [], ev0)).1 by (by rewrite Ed).
    rewrite distribute_eq by done. by rewrite map_map.
  - assert (N = 0%nat) as E0 by lia. rewrite E0 in Hlen |- *.
    by destruct qs1.
Qed.

End MainShape.

(** C1. For every list [L] of work items and every device count [N >= 1],
    the distribution of lines 53-54 (starting, as in [main], from [N] empty
    queues) puts the item at index [i] on channel [i mod N] (at position
    [i / N]); every channel holds items of [L] in their order in [L]; and all
    channels together hold exactly the items of [L], each occurrence once. *)
Theorem round_robin_partition (L : list pystr) (N : nat) (ev0 : list mevent) :
  (1 <= N)%nat ->
  let chs := (distribute L (seq 0 N) (replicate N [], ev0)).1 in
  length chs = N /\
  (forall i x, L !! i = Some x ->
     exists ch, chs !! (i mod N)%nat = Some ch /\ ch !! (i / N)%nat = Some (Some x)) /\
  (forall k ch, chs !! k = Some ch ->
     exists items, ch = map Some items /\ items `sublist_of` L) /\
  concat chs ≡ₚ map Some L.
Proof.
  intros HN chs. subst chs. rewrite distribute_eq by done.
  split; [|split; [|split]].
  - by rewrite length_map, length_seq.
  - intros i x Hx. eexists. split.
    + rewrite list_lookup_fmap, lookup_seq_lt by (apply Nat.mod_upper_bound; lia).
      reflexivity.
    + rewrite list_lookup_fmap.
      rewrite (share_lookup N HN (i mod N) L) with (D := (i mod N)%nat)
        by (try apply Nat.mod_upper_bound; try lia; apply Nat.Div0.mod_mod).
      rewrite Nat.mul_comm, <- Nat.div_mod_eq, Hx. done.
  - intros k ch Hk. rewrite list_lookup_fmap in Hk.
    destruct (seq 0 N !! k) as [k'|] eqn:E; [|done]. simpl in Hk.
    injection Hk as <-. eexists. split; [done|]. apply share_sublist.
  - transitivity (map Some (concat (map (fun k => share N k 0 L) (seq 0 N)))).
    + by rewrite concat_map, map_map.
    + apply Permutation_map, share_perm; done.
Qed.

Lemma round_robin_partition_witness :
  (1 <= 2)%nat /\
  ((distribute [lit "x.pdf"; lit "y.pdf"; lit "z.pdf"] (seq 0 2) (replicate 2 [], [])).1
   = [[Some (lit "x.pdf"); Some (lit "z.pdf")]; [Some (lit "y.pdf")]]) /\
  (length (distribute [lit "x.pdf"; lit "y.pdf"; lit "z.pdf"] (seq 0 2) (replicate 2 [], [])).1
   = 2%nat).
Proof.
  split; [lia|]. split; [reflexivity|].
  apply (round_robin_partition [lit "x.pdf"; lit "y.pdf"; lit "z.pdf"] 2 []). lia.
Defined.

(** C2 (as the code does it). Given a device list of [N] entries, the
    dispatcher spawns exactly [N] workers, worker [i] owns queue [i], every
    entry of the list is bound to exactly one worker, and since each worker
    takes [devices.pop()], worker [i] is bound to the entry at index
    [N - 1 - i]: the list is consumed from its end. *)
Theorem workers_bound_in_reverse_order names exists_ (devs : list pystr) :
  match main (Some names) exists_ devs with
  | Finished _ _ ws =>
      length ws = length devs /\
      ws.*2 = seq 0 (length devs) /\
      ws.*1 ≡ₚ devs /\
      (forall i, (i < length devs)%nat ->
         ws !! i = (fun d => (d, i)) <$> devs !! (length devs - S i)%nat)
  | Aborted _ => False
  end.
Proof.
  destruct (main_shape names exists_ devs) as [ev ->].
  rewrite rev_alt. fold (reverse devs).
  split; [|split; [|split]].
  - by rewrite length_zip_with, length_reverse, length_seq, Nat.min_id.
  - by rewrite snd_zip by (rewrite length_reverse, length_seq; lia).
  - rewrite fst_zip by (rewrite length_reverse, length_seq; lia).
    by rewrite reverse_Permutation.
  - intros i Hi. rewrite lookup_zip_with, reverse_lookup by done.
    rewrite lookup_seq_lt by done.
    destruct (devs !! (length devs - S i)%nat); done.
Qed.

(** C2 fails as written: with the device list ["0","1"] the first worker
    spawned is bound to "1", not to the first entry "0". *)
Lemma device_list_order_counterexample :
  match main (Some []) (fun _ => false) [lit "0"; lit "1"] with
  | Finished _ _ ws =>
      ~ (forall i d, [lit "0"; lit "1"] !! i = Some d -> ws !! i = Some (d, i))
  | Aborted _ => False
  end.
Proof.
  vm_compute. intros H. specialize (H 0%nat _ eq_refl). discriminate H.
Qed.

Section WorkerRuns.

Variable load : strategy.
Variable fs : filesystem.

Lemma process_pdf_split dev q :
  process_pdf load fs true dev q
  = ([EPrint (lit "Start ocr process on device : " ++ dev);
      ESetEnv CUDA_VISIBLE_DEVICES dev; ENewLoader INIT_PDF dev] ++ (worker_loop load fs q).1,
     (worker_loop load fs q).2).
Proof. unfold process_pdf. by destruct (worker_loop load fs q). Qed.

Lemma consumed_app tr1 tr2 : consumed (tr1 ++ tr2) = consumed tr1 ++ consumed tr2.
Proof.
  induction tr1 as [|e tr1 IH]; [done|]. destruct e; simpl; by rewrite IH.
Qed.

(** Processing a run of items that are all processed, then the rest. *)
Lemma worker_loop_app xs q :
  Forall (processed load fs) xs ->
  worker_loop load fs (map Some xs ++ q)
  = ((worker_loop load fs (map Some xs)).1 ++ (worker_loop load fs q).1,
     (worker_loop load fs q).2).
Proof.
  induction xs as [|x xs IH]; intros Hall.
  - simpl. by destruct (worker_loop load fs q).
  - apply Forall_cons in Hall as [(docs & Hx & Hw) Hall]. simpl. rewrite Hx, Hw, IH by done.
    destruct (worker_loop load fs (map Some xs)), (worker_loop load fs q). done.
Qed.

(** The worker stops at the first sentinel of its channel, whatever follows. *)
Lemma worker_loop_sentinel xs ys :
  let r := worker_loop load fs (map Some xs ++ None :: ys) in
  consumed r.1 `prefix_of` map Some xs ++ [None] /\
  (None ∈ consumed r.1 -> consumed r.1 = map Some xs ++ [None] /\ r.2 = Returned) /\
  (Forall (processed load fs) xs -> consumed r.1 = map Some xs ++ [None] /\ r.2 = Returned).
Proof.
  induction xs as [|x xs IH]; simpl.
  - split; [done|]. split; [done|]. done.
  - assert (Hstop : forall tr, tr = [EGet (Some x); ELoad x] \/
                    (exists a c, tr = [EGet (Some x); ELoad x; EWrite a c]) ->
              ~ processed load fs x ->
              consumed tr `prefix_of` Some x :: map Some xs ++ [None] /\
              (None ∈ consumed tr -> consumed tr = Some x :: map Some xs ++ [None] /\
                                     Crashed = Returned) /\
              (Forall (processed load fs) (x :: xs) ->
                 consumed tr = Some x :: map Some xs ++ [None] /\ Crashed = Returned)).
    { intros tr Htr Hnp.
      assert (Hc : consumed tr = [Some x]) by (destruct Htr as [->|(a & c & ->)]; done).
      rewrite Hc. split; [|split].
      - apply prefix_cons, prefix_nil.
      - intros Hin. set_solver.
      - intros Hall. apply Forall_cons in Hall as [Hx _]. done. }
    destruct (load x) as [docs|] eqn:Hx.
    2:{ apply Hstop; [by left|]. intros (d & Hd & _). congruence. }
    destruct (fs (artifact_path x) (Json.dumps (join_pages docs))) as [|n|] eqn:Hw.
    + apply Hstop; [by left|]. intros (d & Hd & Hd'). rewrite Hx in Hd. injection Hd as <-.
      congruence.
    + apply Hstop; [right; by eexists _, _|]. intros (d & Hd & Hd'). rewrite Hx in Hd.
      injection Hd as <-. congruence.
    + destruct (worker_loop load fs (map Some xs ++ None :: ys)) as [tr o]. simpl in *.
      destruct IH as (IH1 & IH2 & IH3). split; [|split].
      * by apply prefix_cons.
      * intros Hin. apply elem_of_cons in Hin as [Hin|Hin]; [done|].
        destruct (IH2 Hin) as [-> ->]. done.
      * intros Hall. apply Forall_cons in Hall as [_ Hall].
        destruct (IH3 Hall) as [-> ->]. done.
Qed.

End WorkerRuns.

Lemma consumed_process_pdf load fs (b : bool) dev q :
  consumed (process_pdf load fs b dev q).1 = if b then consumed (worker_loop load fs q).1 else [].
Proof. destruct b; [by rewrite process_pdf_split|done]. Qed.

Lemma main_worker_queue (devs : list pystr) (d : pystr) (k : nat) :
  (d, k) ∈ zip (rev devs) (seq 0 (length devs)) -> (k < length devs)%nat.
Proof.
  intros Hin. apply list_elem_of_lookup in Hin as [j Hj].
  rewrite lookup_zip_with in Hj.
  destruct (rev devs !! j); simpl in Hj; [|done].
  destruct (seq 0 (length devs) !! j) eqn:E; simpl in Hj; [|done].
  injection Hj as -> ->. apply lookup_seq in E. lia.
Qed.

(** C3. Every channel built by the dispatcher holds its work items followed
    by exactly one sentinel; the worker bound to it never consumes anything
    after a sentinel (whatever follows it on the channel): when it takes the
    sentinel, that is the last item it consumes and it returns; when its
    loader is constructed and every item of its channel is processed to its
    end (extracted, and its artifact written), it consumes all its items and
    then the sentinel, and returns.  A worker that dies earlier (its loader,
    an extraction or a write raises) never takes its sentinel. *)
Theorem sentinel_last_item names exists_ (devs : list pystr) (load : strategy)
    (fs : filesystem) (loader_ok : pystr -> bool) :
  (match main (Some names) exists_ devs with
   | Finished _ qs ws =>
       forall d k, (d, k) ∈ ws ->
       exists items q, qs !! k = Some q /\ q = map Some items ++ [None] /\
         let r := process_pdf load fs (loader_ok d) d q in
         consumed r.1 `prefix_of` q /\
         (None ∈ consumed r.1 -> consumed r.1 = q /\ r.2 = Returned) /\
         (loader_ok d = true -> Forall (processed load fs) items ->
            consumed r.1 = q /\ r.2 = Returned)
   | Aborted _ => False
   end) /\
  (forall dev xs ys,
     let r := process_pdf load fs (loader_ok dev) dev (map Some xs ++ None :: ys) in
     consumed r.1 `prefix_of` map Some xs ++ [None] /\
     (None ∈ consumed r.1 -> consumed r.1 = map Some xs ++ [None] /\ r.2 = Returned)).
Proof.
  split.
  - destruct (main_shape names exists_ devs) as [ev ->].
    intros d k Hin. apply main_worker_queue in Hin.
    eexists _, _. split.
    { rewrite list_lookup_fmap, lookup_seq_lt by done. reflexivity. }
    split; [done|].
    cbv zeta. rewrite !consumed_process_pdf.
    destruct (loader_ok d).
    + rewrite process_pdf_split. cbn [snd].
      destruct (worker_loop_sentinel load fs (share (length devs) k 0 (select_pdfs names exists_)) [])
        as (H1 & H2 & H3).
      auto.
    + split; [apply prefix_nil|]. split; [set_solver|]. discriminate.
  - intros dev xs ys. cbv zeta. rewrite !consumed_process_pdf.
    destruct (loader_ok dev).
    + rewrite process_pdf_split. cbn [snd].
      destruct (worker_loop_sentinel load fs xs ys) as (H1 & H2 & H3). auto.
    + split; [apply prefix_nil|]. set_solver.
Qed.

Section Paths.

Lemma path_join_pdf_dir f : SLASH ∉ f -> path_join PDF_DIR f = PDF_DIR ++ f.
Proof.
  intros Hf. unfold path_join.
  rewrite bool_decide_false.
  2:{ intros [r ->]. apply Hf. simpl. left. }
  done.
Qed.

Lemma select_pdfs_nodup names exists_ :
  NoDup names -> Forall (fun f => SLASH ∉ f) names ->
  NoDup (select_pdfs names exists_).
Proof.
  intros Hnd Hs. apply NoDup_ListNoDup in Hnd.
  apply NoDup_ListNoDup. unfold select_pdfs. apply List.NoDup_filter.
  apply NoDup_map_NoDup_ForallPairs; [|by apply List.NoDup_filter].
  intros f g Hf Hg E. apply filter_In in Hf as [Hf _], Hg as [Hg _].
  rewrite Forall_forall in Hs.
  rewrite !path_join_pdf_dir in E by (apply Hs, list_elem_of_In; done).
  by apply app_inv_head in E.
Qed.

End Paths.

Lemma share_elem (N k : nat) (L : list pystr) i x :
  x ∈ share N k i L -> exists j, L !! j = Some x /\ ((i + j) mod N = k)%nat.
Proof.
  revert i. induction L as [|y L IH]; intros i Hin; simpl in Hin; [set_solver|].
  destruct (Nat.eqb_spec (i mod N) k) as [Hk|Hk].
  - apply elem_of_cons in Hin as [->|Hin].
    + exists 0%nat. by rewrite Nat.add_0_r.
    + destruct (IH (S i) Hin) as (j & Hj & Hm). exists (S j).
      split; [done|]. by rewrite <- Nat.add_succ_comm.
  - destruct (IH (S i) Hin) as (j & Hj & Hm). exists (S j).
    split; [done|]. by rewrite <- Nat.add_succ_comm.
Qed.

(** C6. When the extraction of item [x] raises, every earlier item of the
    channel having been processed to its end (extracted, its artifact
    written), the worker's run is the run on the earlier
    items followed by taking [x] and loading it, and then the process ends:
    no artifact is written for [x], [x] is loaded once, and nothing queued
    behind it is taken.  No other channel of the dispatcher holds [x]
    (input names are distinct and contain no slash, as [os.listdir] returns
    them), so no other worker processes it. *)
Theorem extraction_failure_abandons (load : strategy) (fs : filesystem) dev xs x rest :
  Forall (processed load fs) xs -> load x = None ->
  process_pdf load fs true dev (map Some xs ++ Some x :: rest)
  = ((process_pdf load fs true dev (map Some xs)).1 ++ [EGet (Some x); ELoad x], Crashed) /\
  (forall names exists_ (devs : list pystr),
     NoDup names -> Forall (fun f => SLASH ∉ f) names ->
     match main (Some names) exists_ devs with
     | Finished _ qs _ =>
         forall k k' q q', qs !! k = Some q -> qs !! k' = Some q' ->
         Some x ∈ q -> Some x ∈ q' -> k = k'
     | Aborted _ => False
     end).
Proof.
  intros Hall Hx. split.
  - rewrite !process_pdf_split, worker_loop_app by done.
    cbn [worker_loop]. rewrite Hx. cbn [fst snd].
    by rewrite <- !app_assoc.
  - intros names exists_ devs Hnd Hs.
    destruct (main_shape names exists_ devs) as [ev ->].
    set (L := select_pdfs names exists_).
    assert (HL : NoDup L) by (by apply select_pdfs_nodup).
    assert (Hmem : forall k q, map (fun k => map Some (share (length devs) k 0 L) ++ [None])
                                 (seq 0 (length devs)) !! k = Some q ->
                   Some x ∈ q -> exists j, L !! j = Some x /\ (j mod length devs = k)%nat).
    { intros k q Hq Hin. rewrite list_lookup_fmap in Hq.
      destruct (seq 0 (length devs) !! k) as [k0|] eqn:E; [|done].
      apply lookup_seq in E as [-> _]. injection Hq as <-.
      apply elem_of_app in Hin as [Hin|Hin]; [|set_solver].
      apply list_elem_of_In, in_map_iff in Hin as (y & [= ->] & Hin).
      apply list_elem_of_In in Hin. by apply share_elem in Hin. }
    intros k k' q q' Hq Hq' Hin Hin'.
    destruct (Hmem k q Hq Hin) as (j & Hj & <-).
    destruct (Hmem k' q' Hq' Hin') as (j' & Hj' & <-).
    by rewrite (NoDup_lookup L j j' x HL Hj Hj').
Qed.

Lemma extraction_failure_abandons_witness :
  let load := fun p : pystr => if bool_decide (p = lit "b.pdf") then None else Some [lit "A"] in
  let fs := fun _ _ : pystr => WOk in
  Forall (processed load fs) [lit "a.pdf"] /\ load (lit "b.pdf") = None /\
  process_pdf load fs true (lit "0")
    (map Some [lit "a.pdf"] ++ Some (lit "b.pdf") :: [Some (lit "c.pdf")])
  = ((process_pdf load fs true (lit "0") (map Some [lit "a.pdf"])).1
       ++ [EGet (Some (lit "b.pdf")); ELoad (lit "b.pdf")], Crashed).
Proof.
  intros load fs.
  assert (H1 : Forall (processed load fs) [lit "a.pdf"])
    by (constructor; [exists [lit "A"]; split; reflexivity | constructor]).
  assert (H2 : load (lit "b.pdf") = None) by reflexivity.
  split; [exact H1|]. split; [exact H2|].
  apply (extraction_failure_abandons load fs (lit "0") [lit "a.pdf"] (lit "b.pdf")
           [Some (lit "c.pdf")] H1 H2).
Defined.

(** C7. A worker's first actions are: announce its device, set
    [CUDA_VISIBLE_DEVICES] to its single device, construct its loader for
    that device; nothing after that sets the environment again or
    constructs another loader, and every extraction comes after. *)
Theorem device_bound_before_extraction (load : strategy) (fs : filesystem) (loader_ok : bool)
    (dev : pystr) q :
  exists rest,
  (process_pdf load fs loader_ok dev q).1
  = [EPrint (lit "Start ocr process on device : " ++ dev);
     ESetEnv CUDA_VISIBLE_DEVICES dev; ENewLoader INIT_PDF dev] ++ rest /\
  Forall (fun e => match e with ESetEnv _ _ | ENewLoader _ _ => False | _ => True end) rest.
Proof.
  destruct loader_ok; [|exists []; split; [reflexivity|constructor]].
  rewrite process_pdf_split. eexists. split; [reflexivity|].
  induction q as [|[p|] q IH]; simpl; [constructor| |repeat constructor].
  destruct (load p) as [docs|]; [|repeat constructor].
  destruct (fs _ _) as [|n|]; [repeat constructor|repeat constructor|].
  destruct (worker_loop load fs q) as [tr o]. simpl in *. by repeat constructor.
Qed.

(** C8. When listing the input directory raises, [main] stops with no
    event at all: no queue created, no worker spawned, nothing enqueued. *)
Theorem listdir_failure_aborts exists_ (devs : list pystr) :
  main None exists_ devs = Aborted [].
Proof. reflexivity. Qed.

Ltac zbool :=
  repeat match goal with
  | |- context [Z.leb ?a ?b] => destruct (Z.leb_spec a b)
  | |- context [Z.ltb ?a ?b] => destruct (Z.ltb_spec a b)
  end.

Module JsonProofs.
Import Json.

Lemma hexval_hexdig d : 0 <= d < 16 -> hexval (hexdig d) = Some d.
Proof.
  intros Hd. unfold hexdig. destruct (Z.ltb_spec d 10); unfold hexval; zbool;
    simpl; f_equal; lia.
Qed.

Lemma decode_u_hex4 n rest : 0 <= n < 65536 -> decode_u (hex4 n ++ rest) = Some (n, rest).
Proof.
  intros Hn. unfold hex4. cbn [app decode_u].
  rewrite !hexval_hexdig by (apply Z.mod_pos_bound; lia).
  f_equal. f_equal. Z.div_mod_to_equations. lia.
Qed.

Lemma lor_low_bits a b : 0 <= b < 1024 -> Z.lor (a * 1024) b = a * 1024 + b.
Proof.
  intros Hb.
  assert (Hland : Z.land (a * 1024) b = 0).
  { change 1024 with (2 ^ 10) in *.
    transitivity (Z.land (Z.land (a * 2 ^ 10) (Z.ones 10)) b).
    { rewrite <- Z.land_assoc, (Z.land_comm (Z.ones 10) b), Z.land_ones by lia.
      rewrite Z.mod_small; lia. }
    rewrite Z.land_ones by lia. rewrite Z_mod_mult. apply Z.land_0_l. }
  rewrite <- Z.lxor_lor by done. rewrite <- Z.add_nocarry_lxor by done. done.
Qed.

Lemma scan_escape_char f c rest acc :
  valid_char c -> scan (S f) (escape_char c ++ rest) acc = scan f rest (c :: acc).
Proof.
  intros [Hr Hs]. unfold escape_char.
  destruct (Z.eqb_spec c 92) as [->|H92]; [reflexivity|].
  destruct (Z.eqb_spec c 34) as [->|H34]; [reflexivity|].
  destruct (Z.eqb_spec c 8) as [->|H8]; [reflexivity|].
  destruct (Z.eqb_spec c 12) as [->|H12]; [reflexivity|].
  destruct (Z.eqb_spec c 10) as [->|H10]; [reflexivity|].
  destruct (Z.eqb_spec c 13) as [->|H13]; [reflexivity|].
  destruct (Z.eqb_spec c 9) as [->|H9]; [reflexivity|].
  destruct ((32 <=? c) && (c <=? 126)) eqn:Hp.
  - apply andb_true_iff in Hp as [Hp1 Hp2].
    apply Z.leb_le in Hp1, Hp2. cbn [app scan].
    rewrite (proj2 (Z.eqb_neq c 34) H34), (proj2 (Z.eqb_neq c 92) H92).
    destruct (Z.ltb_spec c 32); [lia|]. done.
  - destruct (Z.ltb_spec c 65536).
    + unfold uesc. cbn [app scan Z.eqb Pos.eqb]. rewrite decode_u_hex4 by lia.
      destruct (Z.leb_spec 55296 c), (Z.leb_spec c 56319); simpl; try lia; done.
    + set (n := c - 65536).
      assert (Hn : 0 <= n < 1048576) by lia.
      assert (Hq : 0 <= n / 1024 < 1024) by (Z.div_mod_to_equations; lia).
      assert (Hm : 0 <= n mod 1024 < 1024) by (apply Z.mod_pos_bound; lia).
      assert (Hhi : Z.lor 55296 (Z.land (Z.shiftr n 10) 1023) = 55296 + n / 1024).
      { change 55296 with (54 * 1024). change 1023 with (Z.ones 10).
        rewrite Z.land_ones, Z.shiftr_div_pow2 by lia.
        rewrite lor_low_bits by (change (2 ^ 10) with 1024; apply Z.mod_pos_bound; lia).
        change (2 ^ 10) with 1024.
        rewrite (Z.mod_small (n / 1024)); [reflexivity|Z.div_mod_to_equations; lia]. }
      assert (Hlo : Z.lor 56320 (Z.land n 1023) = 56320 + n mod 1024).
      { change 56320 with (55 * 1024). change 1023 with (Z.ones 10).
        rewrite Z.land_ones by lia. change (2 ^ 10) with 1024.
        rewrite lor_low_bits by (apply Z.mod_pos_bound; lia). lia. }
      cbv zeta. fold n. rewrite Hhi, Hlo. unfold uesc.
      cbn [app scan Z.eqb Pos.eqb]. rewrite <- app_assoc, decode_u_hex4 by lia.
      destruct (Z.leb_spec 55296 (55296 + n / 1024)); [|lia].
      destruct (Z.leb_spec (55296 + n / 1024) 56319); [|lia]. cbn [andb app].
      cbn [Z.eqb Pos.eqb andb]. rewrite decode_u_hex4 by lia.
      destruct (Z.leb_spec 56320 (56320 + n mod 1024)); [|lia].
      destruct (Z.leb_spec (56320 + n mod 1024) 57343); [|lia]. cbn [andb].
      do 3 f_equal.
      replace (55296 + n / 1024 - 55296) with (n / 1024) by lia.
      replace (56320 + n mod 1024 - 56320) with (n mod 1024) by lia.
      rewrite Z.shiftl_mul_pow2 by lia. change (2 ^ 10) with 1024.
      rewrite lor_low_bits by (apply Z.mod_pos_bound; lia).
      rewrite (Z.mul_comm (n / 1024)), <- Z.div_mod by lia. unfold n. lia.
Qed.

Lemma escape_char_length c : (1 <= length (escape_char c))%nat.
Proof. unfold escape_char, uesc. repeat case_match; simpl; lia. Qed.

Lemma escaped_length (s : pystr) : (length s <= length (concat (map escape_char s)))%nat.
Proof.
  induction s as [|c s IH]; simpl; [lia|].
  rewrite length_app. pose proof (escape_char_length c). lia.
Qed.

Lemma scan_escaped (s : pystr) rest : forall acc f,
  Forall valid_char s -> (length s < f)%nat ->
  scan f (concat (map escape_char s) ++ 34 :: rest) acc = Some (rev acc ++ s, rest).
Proof.
  induction s as [|c s IH]; intros acc f Hv Hf.
  - destruct f as [|f]; [lia|]. simpl. by rewrite app_nil_r.
  - apply Forall_cons in Hv as [Hc Hv].
    destruct f as [|f]; [simpl in Hf; lia|].
    cbn [map concat]. rewrite <- app_assoc, scan_escape_char by done.
    rewrite IH by (done || simpl in Hf; lia). simpl. by rewrite <- app_assoc.
Qed.

(** [json.loads(json.dumps(s)) == s] for every string of scalar values. *)
Lemma loads_dumps (s : pystr) : Forall valid_char s -> loads_str (dumps s) = Some s.
Proof.
  intros Hv. unfold loads_str, dumps. cbn [skip_ws is_ws Z.eqb Pos.eqb orb].
  rewrite scan_escaped by (try done; rewrite length_app; pose proof (escaped_length s); simpl; lia).
  done.
Qed.

End JsonProofs.

Section Artifacts.

Lemma split_tail_no_slash (p : pystr) : SLASH ∉ split_tail p.
Proof.
  induction p as [|c r IH]; simpl; [set_solver|].
  destruct (existsb (Z.eqb SLASH) r) eqn:E; [done|].
  assert (Hr : SLASH ∉ r).
  { intros Hin. apply list_elem_of_In in Hin.
    assert (existsb (Z.eqb SLASH) r = true) as E'
      by (apply existsb_exists; exists SLASH; split; [done|apply Z.eqb_refl]).
    congruence. }
  destruct (Z.eqb_spec c SLASH) as [->|Hc]; [done|].
  apply not_elem_of_cons. split; [congruence|done].
Qed.

Lemma artifact_path_eq (p : pystr) :
  artifact_path p = lit "ocr_results/" ++ split_tail p ++ lit ".json".
Proof.
  unfold artifact_path, path_join.
  rewrite bool_decide_false.
  2:{ intros [r Hr]. destruct (split_tail p) as [|c t] eqn:E.
      - discriminate Hr.
      - injection Hr as Hc _. apply (split_tail_no_slash p). rewrite E, Hc. left. }
  done.
Qed.

Lemma join_pages_eq (docs : list pystr) :
  join_pages docs = concat (map (fun d => d ++ [10; 10]) docs).
Proof.
  unfold join_pages.
  assert (forall s0, fold_left (fun s d => (s ++ d) ++ [10; 10]) docs s0
                     = s0 ++ concat (map (fun d => d ++ [10; 10]) docs)) as H.
  { induction docs as [|d docs IH]; intros s0; simpl; [by rewrite app_nil_r|].
    rewrite IH. by rewrite <- !app_assoc. }
  apply H.
Qed.

End Artifacts.

(** C4. When the worker (its loader constructed, every earlier item of its
    channel processed to its end) reaches an item [p] whose extraction
    returns the page texts [docs] and whose artifact the file system
    accepts, it takes [p], loads it and writes one artifact named
    [ocr_results/<os.path.split(p)[1]>.json] whose content is the JSON
    encoding of [s1 + "\n\n" + ... + sk + "\n\n"]; decoding that content
    gives the string back (for page texts made of Unicode scalar values), in
    particular ["Hello\n\nWorld\n\n"] for the pages ["Hello"; "World"]. *)
Theorem artifact_of_processed_item (load : strategy) (fs : filesystem) dev xs p docs rest :
  Forall (processed load fs) xs -> load p = Some docs ->
  fs (artifact_path p) (Json.dumps (join_pages docs)) = WOk ->
  (exists tr,
     (process_pdf load fs true dev (map Some xs ++ Some p :: rest)).1
     = (process_pdf load fs true dev (map Some xs)).1
       ++ EGet (Some p) :: ELoad p :: EWrite (artifact_path p) (Json.dumps (join_pages docs)) :: tr) /\
  artifact_path p = lit "ocr_results/" ++ split_tail p ++ lit ".json" /\
  join_pages docs = concat (map (fun d => d ++ [10; 10]) docs) /\
  (Forall Json.valid_char (concat docs) ->
     Json.loads_str (Json.dumps (join_pages docs)) = Some (join_pages docs)) /\
  Json.loads_str (Json.dumps (join_pages [lit "Hello"; lit "World"]))
  = Some (lit "Hello" ++ [10; 10] ++ lit "World" ++ [10; 10]).
Proof.
  intros Hall Hp Hw. split; [|split; [|split; [|split]]].
  - rewrite !process_pdf_split, worker_loop_app by done.
    cbn [worker_loop]. rewrite Hp, Hw.
    destruct (worker_loop load fs rest) as [tr o]. cbn [fst].
    exists tr. by rewrite <- !app_assoc.
  - apply artifact_path_eq.
  - apply join_pages_eq.
  - intros Hv. apply JsonProofs.loads_dumps. rewrite join_pages_eq.
    clear -Hv. induction docs as [|d docs IH]; simpl in *; [constructor|].
    apply Forall_app in Hv as [Hd Hv].
    apply Forall_app. split; [apply Forall_app; split; [done|]|].
    + repeat constructor; lia.
    + by apply IH.
  - vm_compute. reflexivity.
Qed.

Lemma artifact_of_processed_item_witness :
  let load := fun p : pystr => Some [lit "Hello"; lit "World"] in
  let fs := fun _ _ : pystr => WOk in
  Forall (processed load fs) [] /\ load (lit "/pdfs/a.pdf") = Some [lit "Hello"; lit "World"] /\
  fs (artifact_path (lit "/pdfs/a.pdf")) (Json.dumps (join_pages [lit "Hello"; lit "World"])) = WOk /\
  artifact_path (lit "/pdfs/a.pdf") = lit "ocr_results/a.pdf.json".
Proof.
  intros load fs.
  assert (H1 : Forall (processed load fs) []) by constructor.
  assert (H2 : load (lit "/pdfs/a.pdf") = Some [lit "Hello"; lit "World"]) by reflexivity.
  assert (H3 : fs (artifact_path (lit "/pdfs/a.pdf"))
                  (Json.dumps (join_pages [lit "Hello"; lit "World"])) = WOk) by reflexivity.
  split; [exact H1|]. split; [exact H2|]. split; [exact H3|].
  destruct (artifact_of_processed_item load fs (lit "0") [] (lit "/pdfs/a.pdf")
              [lit "Hello"; lit "World"] [] H1 H2 H3) as (_ & Hpath & _).
  rewrite Hpath. reflexivity.
Defined.

Section Selection.

Lemma existsb_slash_false (f : pystr) : SLASH ∉ f -> existsb (Z.eqb SLASH) f = false.
Proof.
  intros Hf. apply not_true_iff_false. intros E.
  apply existsb_exists in E as (c & Hc & Ec). apply Z.eqb_eq in Ec as <-.
  apply Hf, list_elem_of_In, Hc.
Qed.

Lemma split_tail_last_slash (l f : pystr) : SLASH ∉ f -> split_tail (l ++ SLASH :: f) = f.
Proof.
  intros Hf. induction l as [|c l IH]; simpl.
  - by rewrite existsb_slash_false.
  - rewrite existsb_app. cbn [existsb]. rewrite Z.eqb_refl, orb_true_r. done.
Qed.

Lemma artifact_path_input (f : pystr) :
  SLASH ∉ f -> artifact_path (path_join PDF_DIR f) = lit "ocr_results/" ++ f ++ lit ".json".
Proof.
  intros Hf. rewrite path_join_pdf_dir, artifact_path_eq by done.
  change (PDF_DIR ++ f) with (lit "/pdfs" ++ SLASH :: f).
  by rewrite split_tail_last_slash.
Qed.

End Selection.

(** C5. A name [f] listed in the input directory is dispatched (as
    ["/pdfs/" + f]) exactly when it ends with [".pdf"] and
    ["ocr_results/" + f + ".json"] does not exist; nothing else is
    dispatched.  With [a.pdf], [b.pdf] listed and
    [ocr_results/a.pdf.json] present, only [/pdfs/b.pdf] is dispatched. *)
Theorem selection_iff names exists_ (f : pystr) :
  Forall (fun g => SLASH ∉ g) names -> SLASH ∉ f ->
  (path_join PDF_DIR f ∈ select_pdfs names exists_ <->
   f ∈ names /\ endswith (lit ".pdf") f = true /\
   exists_ (lit "ocr_results/" ++ f ++ lit ".json") = false) /\
  (forall g, g ∈ select_pdfs names exists_ -> exists h, h ∈ names /\ g = path_join PDF_DIR h) /\
  select_pdfs [lit "a.pdf"; lit "b.pdf"]
    (fun q => bool_decide (q = lit "ocr_results/a.pdf.json"))
  = [lit "/pdfs/b.pdf"].
Proof.
  intros Hs Hf. rewrite Forall_forall in Hs. split; [|split].
  - unfold select_pdfs. rewrite list_elem_of_In, filter_In, in_map_iff.
    rewrite artifact_path_input by done. split.
    + intros [(h & Eh & Hh) Hx]. apply filter_In in Hh as [Hh He].
      assert (SLASH ∉ h) by (apply Hs, list_elem_of_In, Hh).
      rewrite !path_join_pdf_dir in Eh by done. apply app_inv_head in Eh. subst h.
      split; [by apply list_elem_of_In|]. split; [done|]. by apply negb_true_iff.
    + intros (Hin & He & Hx). split.
      * exists f. split; [done|]. apply filter_In. split; [by apply list_elem_of_In|done].
      * by rewrite Hx.
  - intros g Hg. unfold select_pdfs in Hg.
    apply list_elem_of_In, filter_In in Hg as [Hg _].
    apply in_map_iff in Hg as (h & <- & Hh). apply filter_In in Hh as [Hh _].
    exists h. split; [by apply list_elem_of_In|done].
  - vm_compute. reflexivity.
Qed.

Lemma selection_iff_witness :
  Forall (fun g => SLASH ∉ g) [lit "a.pdf"; lit "b.pdf"] /\ (SLASH ∉ lit "b.pdf") /\
  (path_join PDF_DIR (lit "b.pdf")
     ∈ select_pdfs [lit "a.pdf"; lit "b.pdf"]
         (fun q => bool_decide (q = lit "ocr_results/a.pdf.json"))).
Proof.
  assert (H1 : Forall (fun g => SLASH ∉ g) [lit "a.pdf"; lit "b.pdf"])
    by (apply (bool_decide_unpack _); vm_compute; reflexivity).
  assert (H2 : SLASH ∉ lit "b.pdf")
    by (apply (bool_decide_unpack _); vm_compute; reflexivity).
  split; [exact H1|]. split; [exact H2|].
  apply (proj2 (proj1 (selection_iff [lit "a.pdf"; lit "b.pdf"]
                  (fun q => bool_decide (q = lit "ocr_results/a.pdf.json")) (lit "b.pdf") H1 H2))).
  split; [apply (bool_decide_unpack _); vm_compute; reflexivity|].
  split; vm_compute; reflexivity.
Defined.

Section Pix2TextProofs.

Definition is_type (t : string) (o : out) : bool := bool_decide (otype o = lit t).

Lemma fold_classify (outs : list out) h f b :
  fold_left classify outs (h, f, b)
  = (h ++ concat (map otext (List.filter (is_type "Header") outs)),
     f ++ concat (map otext (List.filter (is_type "Footer") outs)),
     b ++ concat (map otext (List.filter (fun o => negb (is_type "Header" o) &&
                                                   negb (is_type "Footer" o) &&
                                                   negb (is_type "Reference" o)) outs))).
Proof.
  unfold is_type.
  revert h f b. induction outs as [|o outs IH]; intros h f b; cbn [fold_left List.filter].
  - by rewrite !app_nil_r.
  - unfold classify at 2.
    destruct (bool_decide (otype o = lit "Footer")) eqn:EF.
    + apply bool_decide_eq_true in EF.
      rewrite (bool_decide_eq_false_2 (otype o = lit "Header")) by (rewrite EF; vm_compute; congruence).
      cbn [negb andb]. rewrite IH. cbn [map concat]. by rewrite <- !app_assoc.
    + destruct (bool_decide (otype o = lit "Header")) eqn:EH; cbn [negb andb].
      * rewrite IH. cbn [map concat]. by rewrite <- !app_assoc.
      * destruct (bool_decide (otype o = lit "Reference")) eqn:ER; cbn [negb andb];
          rewrite IH; cbn [map concat]; by rewrite <- ?app_assoc.
Qed.

End Pix2TextProofs.

(** C9. The text of a page is the header texts, a blank line, the body
    texts, a blank line, the footer texts and a blank line, each group in
    the recognizer's order; segments typed ['Reference'] are dropped. *)
Theorem page_text_grouping (outs : list out) :
  page_text outs
  = concat (map otext (List.filter (is_type "Header") outs)) ++ [10; 10] ++
    concat (map otext (List.filter (fun o => negb (is_type "Header" o) &&
                                             negb (is_type "Footer" o) &&
                                             negb (is_type "Reference" o)) outs)) ++ [10; 10] ++
    concat (map otext (List.filter (is_type "Footer") outs)) ++ [10; 10].
Proof. unfold page_text. by rewrite fold_classify. Qed.

Lemma parse_pages_success save recog removes name n : forall i fs tr fs',
  parse_pages save recog removes name i n fs = (tr, fs', true) ->
  (forall x, x ∈ fs' <-> x ∈ fs /\ forall j, (j < n)%nat -> x <> page_png name (i + j)) /\
  exists txts, length txts = n /\
    tr = concat (zip_with (fun j txt => [PSave (page_png name j); PRecognize (page_png name j);
                                         PRemove (page_png name j); PYield txt (S j)])
                          (seq i n) txts).
Proof.
  induction n as [|n IH]; intros i fs tr fs' Hrun; simpl in Hrun.
  - injection Hrun as <- <-. split.
    + intros x. split; [intros Hx; split; [done|lia]|tauto].
    + exists []. done.
  - destruct (save i) as [kept|]; [discriminate|].
    destruct (recog i) as [outs|]; [|discriminate].
    rewrite bool_decide_true in Hrun by set_solver.
    destruct (removes i); [|discriminate]. cbn [andb] in Hrun.
    destruct (parse_pages save recog removes name (S i) n _) as [[tr' fs3] ok] eqn:E.
    injection Hrun as <- -> ->.
    destruct (IH _ _ _ _ E) as [Hfs (txts & Hlen & ->)]. split.
    + intros x. rewrite Hfs. split.
      * intros [Hx Hj]. apply elem_of_difference in Hx as [Hx Hne].
        split; [set_solver|]. intros [|j] Hjn.
        -- rewrite Nat.add_0_r. set_solver.
        -- rewrite <- Nat.add_succ_comm. apply Hj. lia.
      * intros [Hx Hj]. split.
        -- apply elem_of_difference. split; [set_solver|].
           specialize (Hj 0%nat ltac:(lia)). rewrite Nat.add_0_r in Hj. set_solver.
        -- intros j Hjn. rewrite Nat.add_succ_comm. apply Hj. lia.
    + exists (page_text outs :: txts). split; [simpl; lia|]. done.
Qed.

(** C10. After a parse that runs to its end, every page [idx] has had its
    image [<pdf_name>_page_<idx>.png] saved, recognized and removed before
    its Document is yielded, and afterwards the directory holds exactly the
    files it held before minus those page images: none of them remains. *)
Theorem temp_images_removed opens save recog removes npages file_path fs tr fs' :
  lazy_parse opens save recog removes npages file_path fs = (tr, fs', true) ->
  let name := splitext_root (split_tail file_path) in
  (forall idx, (idx < npages)%nat -> page_png name idx ∉ fs') /\
  (forall x, x ∈ fs' <-> x ∈ fs /\ forall idx, (idx < npages)%nat -> x <> page_png name idx) /\
  exists txts, length txts = npages /\
    tr = concat (zip_with (fun idx txt => [PSave (page_png name idx); PRecognize (page_png name idx);
                                           PRemove (page_png name idx); PYield txt (S idx)])
                          (seq 0 npages) txts).
Proof.
  intros Hrun name. unfold lazy_parse in Hrun. destruct opens; [|discriminate].
  apply parse_pages_success in Hrun as [Hfs Htr].
  split; [|split; [|exact Htr]].
  - intros idx Hidx Hin. apply Hfs in Hin as [_ Hin]. by apply (Hin idx).
  - exact Hfs.
Qed.

Lemma temp_images_removed_witness :
  let save := fun _ : nat => Saved in
  let recog := fun _ : nat => Some [Build_out (lit "Text") (lit "B")] in
  let removes := fun _ : nat => true in
  lazy_parse true save recog removes 2 (lit "/pdfs/x.pdf") {[lit "keep"]}
    = (fst (fst (lazy_parse true save recog removes 2 (lit "/pdfs/x.pdf") {[lit "keep"]})),
       snd (fst (lazy_parse true save recog removes 2 (lit "/pdfs/x.pdf") {[lit "keep"]})), true) /\
  lit "x_page_1.png"
    ∉ snd (fst (lazy_parse true save recog removes 2 (lit "/pdfs/x.pdf") {[lit "keep"]})).
Proof.
  intros save recog removes.
  assert (H : lazy_parse true save recog removes 2 (lit "/pdfs/x.pdf") {[lit "keep"]}
    = (fst (fst (lazy_parse true save recog removes 2 (lit "/pdfs/x.pdf") {[lit "keep"]})),
       snd (fst (lazy_parse true save recog removes 2 (lit "/pdfs/x.pdf") {[lit "keep"]})), true))
    by (vm_compute; reflexivity).
  split; [exact H|].
  apply (proj1 (temp_images_removed true save recog removes 2 (lit "/pdfs/x.pdf") {[lit "keep"]}
                  _ _ H) 1%nat).
  lia.
Defined.

(** * Further properties of the code *)

Section JsonOutput.

Lemma hexdig_printable d : 0 <= d < 16 -> 32 <= Json.hexdig d <= 126.
Proof. intros Hd. unfold Json.hexdig. destruct (Z.ltb_spec d 10); lia. Qed.

Lemma uesc_printable n : Forall (fun c => 32 <= c <= 126) (Json.uesc n).
Proof.
  unfold Json.uesc, Json.hex4.
  repeat constructor; try lia; apply hexdig_printable; apply Z.mod_pos_bound; lia.
Qed.

Lemma escape_char_printable c : Forall (fun c => 32 <= c <= 126) (Json.escape_char c).
Proof.
  unfold Json.escape_char.
  destruct (Z.eqb_spec c 92); [repeat constructor; lia|].
  destruct (Z.eqb_spec c 34); [repeat constructor; lia|].
  destruct (Z.eqb_spec c 8); [repeat constructor; lia|].
  destruct (Z.eqb_spec c 12); [repeat constructor; lia|].
  destruct (Z.eqb_spec c 10); [repeat constructor; lia|].
  destruct (Z.eqb_spec c 13); [repeat constructor; lia|].
  destruct (Z.eqb_spec c 9); [repeat constructor; lia|].
  destruct ((32 <=? c) && (c <=? 126)) eqn:E.
  - apply andb_true_iff in E as [E1 E2]. apply Z.leb_le in E1, E2. repeat constructor; lia.
  - destruct (c <? 65536); [apply uesc_printable|].
    apply Forall_app. split; apply uesc_printable.
Qed.

Lemma escape_char_surrogate u :
  55296 <= u <= 57343 -> Json.escape_char u = Json.uesc u.
Proof.
  intros Hu. unfold Json.escape_char.
  repeat match goal with
  | |- context [?a =? ?b] => destruct (Z.eqb_spec a b); [lia|]
  end.
  destruct (Z.leb_spec 32 u), (Z.leb_spec u 126); simpl; try lia.
  destruct (Z.ltb_spec u 65536); [done|lia].
Qed.

End JsonOutput.

(** X1. Whatever the string, [json.dump] writes a double-quoted text made
    of printable ASCII characters only (codes 32 to 126): no newline, no
    control character, no non-ASCII character reaches the artifact. *)
Theorem dumps_printable_ascii (s : pystr) :
  Forall (fun c => 32 <= c <= 126) (Json.dumps s) /\
  head (Json.dumps s) = Some 34 /\ last (Json.dumps s) = Some 34.
Proof.
  unfold Json.dumps. split; [|split].
  - constructor; [lia|]. apply Forall_app. split; [|repeat constructor; lia].
    induction s as [|c s IH]; simpl; [constructor|].
    apply Forall_app. split; [apply escape_char_printable|done].
  - done.
  - rewrite app_comm_cons. apply last_snoc.
Qed.

(** X2. A character above the Basic Multilingual Plane and the string made
    of its two surrogate halves are written identically by [json.dump]:
    decoding either artifact gives the single character, so a page text
    holding a surrogate pair does not round-trip. *)
Theorem dumps_surrogate_pair (c : Z) :
  65536 <= c < 1114112 ->
  let hi := 55296 + (c - 65536) / 1024 in
  let lo := 56320 + (c - 65536) mod 1024 in
  Json.dumps [hi; lo] = Json.dumps [c] /\
  Json.loads_str (Json.dumps [hi; lo]) = Some [c].
Proof.
  intros Hc hi lo.
  assert (Hd : Json.dumps [hi; lo] = Json.dumps [c]).
  { unfold Json.dumps. cbn [map concat]. rewrite !app_nil_r. f_equal. f_equal.
    rewrite !escape_char_surrogate
      by (unfold hi, lo; split; Z.div_mod_to_equations; lia).
    unfold Json.escape_char.
    repeat match goal with
    | |- context [c =? ?b] => destruct (Z.eqb_spec c b); [lia|]
    end.
    destruct (Z.leb_spec 32 c), (Z.leb_spec c 126); simpl; try lia.
    destruct (Z.ltb_spec c 65536); [lia|].
    cbv zeta. set (m := c - 65536).
    assert (Hs1 : Z.land (Z.shiftr m 10) 1023 = m / 1024).
    { change 1023 with (Z.ones 10). rewrite Z.land_ones, Z.shiftr_div_pow2 by lia.
      change (2 ^ 10) with 1024. apply Z.mod_small. unfold m. Z.div_mod_to_equations; lia. }
    assert (Hs2 : Z.land m 1023 = m mod 1024).
    { change 1023 with (Z.ones 10). rewrite Z.land_ones by lia. done. }
    rewrite Hs1, Hs2.
    change 55296 with (54 * 1024). change 56320 with (55 * 1024).
    rewrite !JsonProofs.lor_low_bits
      by (try apply Z.mod_pos_bound; unfold m; Z.div_mod_to_equations; lia).
    unfold hi, lo. fold m. do 2 f_equal; lia. }
  split; [exact Hd|]. rewrite Hd. apply JsonProofs.loads_dumps.
  constructor; [|constructor]. unfold Json.valid_char. lia.
Qed.

Lemma dumps_surrogate_pair_witness :
  65536 <= 128512 < 1114112 /\
  Json.dumps [55296 + (128512 - 65536) / 1024; 56320 + (128512 - 65536) mod 1024]
  = Json.dumps [128512].
Proof.
  split; [lia|]. apply (proj1 (dumps_surrogate_pair 128512 ltac:(lia))).
Defined.

Section PageNames.

Lemma digits_value_snoc (l : pystr) x : digits_value (l ++ [x]) = 10 * digits_value l + (x - 48).
Proof. unfold digits_value. by rewrite fold_left_app. Qed.

Lemma digits_spec fuel : forall n acc, (n < fuel)%nat ->
  exists d, digits fuel n acc = d ++ acc /\ d <> [] /\ forallb is_digit d = true /\
            digits_value d = Z.of_nat n /\ (n = 0%nat \/ head d <> Some 48).
Proof.
  induction fuel as [|f IH]; intros n acc Hn; [lia|].
  cbn [digits]. cbv zeta.
  pose proof (Nat.div_mod_eq n 10) as Hdm. pose proof (Nat.mod_upper_bound n 10 ltac:(lia)) as Hmb.
  destruct (Nat.ltb_spec n 10) as [Hlt|Hge].
  - exists [48 + Z.of_nat (n mod 10)]. rewrite Nat.mod_small in * by done.
    split; [done|]. split; [done|]. split.
    + unfold is_digit. cbn [forallb]. rewrite andb_true_r.
      apply andb_true_iff. split; apply Z.leb_le; lia.
    + split; [unfold digits_value; simpl; lia|].
      destruct (decide (n = 0%nat)) as [->|Hn0]; [by left|right]. simpl. intros [= E]. lia.
  - destruct (IH (n / 10)%nat ((48 + Z.of_nat (n mod 10)) :: acc)) as (d & Hd & Hne & Hdig & Hv & Hh).
    { apply Nat.Div0.div_lt_upper_bound; lia. }
    exists (d ++ [48 + Z.of_nat (n mod 10)]). rewrite Hd, <- app_assoc. split; [done|].
    split; [destruct d; simpl; congruence|]. split.
    + rewrite forallb_app, Hdig. simpl. unfold is_digit. rewrite andb_true_r.
      apply andb_true_iff. split; apply Z.leb_le; lia.
    + split; [rewrite digits_value_snoc, Hv; lia|].
      right. destruct Hh as [Hh|Hh].
      * exfalso. apply Nat.div_small_iff in Hh; lia.
      * destruct d; [done|]. exact Hh.
Qed.

Lemma str_nat_spec n :
  str_nat n <> [] /\ forallb is_digit (str_nat n) = true /\
  digits_value (str_nat n) = Z.of_nat n /\ (n = 0%nat \/ head (str_nat n) <> Some 48).
Proof.
  unfold str_nat. destruct (digits_spec (S n) n [] ltac:(lia)) as (d & -> & H).
  by rewrite app_nil_r.
Qed.

Lemma str_nat_inj i j : str_nat i = str_nat j -> i = j.
Proof.
  intros E. pose proof (proj1 (proj2 (proj2 (str_nat_spec i)))) as Hi.
  pose proof (proj1 (proj2 (proj2 (str_nat_spec j)))) as Hj.
  rewrite E in Hi. lia.
Qed.

Lemma count_char_app c (l1 l2 : pystr) : count_char c (l1 ++ l2) = (count_char c l1 + count_char c l2)%nat.
Proof. unfold count_char. by rewrite List.filter_app, length_app. Qed.

Lemma count_char_digits (l : pystr) : forallb is_digit l = true -> count_char 95 l = 0%nat.
Proof.
  induction l as [|x l IH]; [done|]. simpl. intros [Hx Hl]%andb_true_iff.
  unfold is_digit in Hx. apply andb_true_iff in Hx as [H1 H2]. apply Z.leb_le in H1, H2.
  unfold count_char. simpl. destruct (Z.eqb_spec x 95); [lia|]. apply IH, Hl.
Qed.

Lemma count_page_suffix n : count_char 95 (lit "_page_" ++ str_nat n ++ lit ".png") = 2%nat.
Proof.
  rewrite !count_char_app, (count_char_digits (str_nat n)) by apply str_nat_spec. reflexivity.
Qed.

End PageNames.

(** X3. The temporary image name [<pdf_name>_page_<idx>.png] determines
    both the document stem and the page: two pages get the same file name
    only if they are the same page of documents with the same stem.  The
    page number is written in decimal without leading zeros. *)
Theorem page_png_injective (a b : pystr) (i j : nat) :
  (page_png a i = page_png b j <-> a = b /\ i = j) /\
  digits_value (str_nat i) = Z.of_nat i /\ forallb is_digit (str_nat i) = true /\
  (i = 0%nat \/ head (str_nat i) <> Some 48).
Proof.
  split; [|destruct (str_nat_spec i) as (_ & ? & ? & ?); done].
  split; [|by intros [-> ->]].
  unfold page_png. intros E.
  assert (Hsuf : forall (x y : pystr) k l,
            x ++ lit "_page_" ++ str_nat k ++ lit ".png" = y ++ lit "_page_" ++ str_nat l ++ lit ".png" ->
            (length y <= length x)%nat -> x = y /\ k = l).
  { intros x y k l Exy Hlen. apply app_eq_app in Exy as (w & [[-> Hw]|[-> Hw]]).
    - assert (Hc := f_equal (count_char 95) Hw).
      rewrite count_page_suffix in Hc. rewrite count_char_app, count_page_suffix in Hc.
      destruct w as [|z w]; [|].
      + rewrite app_nil_r. cbn [app] in Hw. split; [done|].
        apply app_inv_head in Hw. apply app_inv_tail in Hw. by apply str_nat_inj.
      + exfalso. simpl in Hw. injection Hw as Hz _. subst z.
        unfold count_char in Hc. simpl in Hc. lia.
    - rewrite length_app in Hlen. destruct w as [|z w]; [|simpl in Hlen; lia].
      rewrite app_nil_r. cbn [app] in Hw. split; [done|].
      apply app_inv_head in Hw. apply app_inv_tail in Hw. by apply str_nat_inj. }
  destruct (Nat.le_ge_cases (length b) (length a)) as [H|H].
  - by apply Hsuf.
  - symmetry in E. destruct (Hsuf _ _ _ _ E H). by split.
Qed.

Section Stems.

Lemma splitext_root_pdf (s : pystr) :
  existsb (fun c => negb (c =? 46)) s = true -> splitext_root (s ++ lit ".pdf") = s.
Proof.
  intros Hs. unfold splitext_root.
  rewrite length_app. change (length (lit ".pdf")) with 4%nat.
  rewrite seq_app, rev_app_distr.
  assert (Hl : forall k, (s ++ lit ".pdf") !! (length s + k)%nat = lit ".pdf" !! k).
  { intros k. rewrite lookup_app_r by lia. f_equal. lia. }
  cbn [seq rev app]. rewrite Nat.add_0_l.
  replace (S (S (S (length s)))) with (length s + 3)%nat by lia.
  replace (S (S (length s))) with (length s + 2)%nat by lia.
  replace (S (length s)) with (length s + 1)%nat by lia.
  rewrite <- (Nat.add_0_r (length s)) at 4.
  cbn [List.filter]. rewrite !Hl.
  assert (B3 : bool_decide (lit ".pdf" !! 3%nat = Some 46) = false) by (vm_compute; reflexivity).
  rewrite B3.
  assert (B2 : bool_decide (lit ".pdf" !! 2%nat = Some 46) = false) by (vm_compute; reflexivity).
  rewrite B2.
  assert (B1 : bool_decide (lit ".pdf" !! 1%nat = Some 46) = false) by (vm_compute; reflexivity).
  rewrite B1.
  assert (B0 : bool_decide (lit ".pdf" !! 0%nat = Some 46) = true) by (vm_compute; reflexivity).
  rewrite B0.
  cbn [List.find]. rewrite Nat.add_0_r, take_app_length, Hs. done.
Qed.

End Stems.

(** X4. Two different files [s.pdf] and [t.pdf] of the input directory,
    each with a character other than ['.'] before its extension, never
    share a temporary page image: the images of [/pdfs/s.pdf] are named
    after [s], those of [/pdfs/t.pdf] after [t].  The condition matters:
    [.pdf] and [.pdf.pdf] both get the stem [.pdf]. *)
Theorem page_images_distinct (s t : pystr) (i j : nat) :
  SLASH ∉ s -> SLASH ∉ t -> s <> t ->
  existsb (fun c => negb (c =? 46)) s = true -> existsb (fun c => negb (c =? 46)) t = true ->
  splitext_root (split_tail (path_join PDF_DIR (s ++ lit ".pdf"))) = s /\
  page_png (splitext_root (split_tail (path_join PDF_DIR (s ++ lit ".pdf")))) i
  <> page_png (splitext_root (split_tail (path_join PDF_DIR (t ++ lit ".pdf")))) j /\
  splitext_root (split_tail (path_join PDF_DIR (lit ".pdf")))
  = splitext_root (split_tail (path_join PDF_DIR (lit ".pdf.pdf"))).
Proof.
  intros Hs Ht Hst Hds Hdt.
  assert (Hroot : forall u, SLASH ∉ u -> existsb (fun c => negb (c =? 46)) u = true ->
            splitext_root (split_tail (path_join PDF_DIR (u ++ lit ".pdf"))) = u).
  { intros u Hu Hdu. assert (Hu' : SLASH ∉ u ++ lit ".pdf").
    { rewrite elem_of_app. intros [H|H]; [done|]. vm_compute in H. set_solver. }
    rewrite path_join_pdf_dir by done.
    change (PDF_DIR ++ u ++ lit ".pdf") with (lit "/pdfs" ++ SLASH :: (u ++ lit ".pdf")).
    rewrite split_tail_last_slash by done. by apply splitext_root_pdf. }
  rewrite !Hroot by done. split; [done|]. split; [|vm_compute; reflexivity].
  intros E. apply (proj1 (page_png_injective s t i j)) in E as [E _]. done.
Qed.

Lemma page_images_distinct_witness :
  page_png (splitext_root (split_tail (path_join PDF_DIR (lit "a" ++ lit ".pdf")))) 0
  <> page_png (splitext_root (split_tail (path_join PDF_DIR (lit "b" ++ lit ".pdf")))) 0.
Proof.
  apply (page_images_distinct (lit "a") (lit "b") 0 0); try (vm_compute; set_solver);
    try (vm_compute; reflexivity); vm_compute; congruence.
Defined.

Lemma images_left_step (fs : gset pystr) name i j x :
  (x ∈ ({[page_png name i]} ∪ fs) ∖ {[page_png name i]} /\
   forall j', (j' < j)%nat -> x <> page_png name (S i + j'))
  <-> (x ∈ fs /\ forall j', (j' < S j)%nat -> x <> page_png name (i + j')).
Proof.
  split.
  - intros [Hx Hne]. apply elem_of_difference in Hx as [Hx Hx'].
    split; [set_solver|]. intros [|j'] Hj'.
    + rewrite Nat.add_0_r. set_solver.
    + rewrite <- Nat.add_succ_comm. apply Hne. lia.
  - intros [Hx Hne]. split.
    + apply elem_of_difference. split; [set_solver|].
      specialize (Hne 0%nat ltac:(lia)). rewrite Nat.add_0_r in Hne. set_solver.
    + intros j' Hj'. rewrite Nat.add_succ_comm. apply Hne. lia.
Qed.

Lemma parse_pages_failure save recog removes name n : forall i fs tr fs',
  parse_pages save recog removes name i n fs = (tr, fs', false) ->
  exists j txts, (j < n)%nat /\
    (forall j', (j' < j)%nat ->
       save (i + j')%nat = Saved /\ is_Some (recog (i + j')%nat) /\ removes (i + j')%nat = true) /\
    length txts = j /\
    ((exists kept, save (i + j)%nat = SaveFails kept /\
       tr = concat (zip_with (fun k txt => [PSave (page_png name k); PRecognize (page_png name k);
                                           PRemove (page_png name k); PYield txt (S k)])
                             (seq i j) txts) /\
       (forall x, x ∈ fs' <-> (kept = true /\ x = page_png name (i + j)) \/
                              (x ∈ fs /\ forall j', (j' < j)%nat -> x <> page_png name (i + j')))) \/
     (save (i + j)%nat = Saved /\
      (recog (i + j)%nat = None \/
       exists outs, recog (i + j)%nat = Some outs /\ removes (i + j)%nat = false) /\
       tr = concat (zip_with (fun k txt => [PSave (page_png name k); PRecognize (page_png name k);
                                           PRemove (page_png name k); PYield txt (S k)])
                             (seq i j) txts)
            ++ [PSave (page_png name (i + j)); PRecognize (page_png name (i + j))] /\
       (forall x, x ∈ fs' <-> x = page_png name (i + j) \/
                              (x ∈ fs /\ forall j', (j' < j)%nat -> x <> page_png name (i + j'))))).
Proof.
  induction n as [|n IH]; intros i fs tr fs' Hrun; simpl in Hrun; [discriminate|].
  assert (Hfirst : forall x, x = page_png name i \/
                   (x ∈ fs /\ forall j', (j' < 0)%nat -> x <> page_png name (i + j'))
                   <-> x ∈ {[page_png name i]} ∪ fs).
  { intros x. split; [intros [->|[Hx _]]; set_solver|].
    intros Hx. apply elem_of_union in Hx as [Hx|Hx]; [left; set_solver|right; split; [done|lia]]. }
  destruct (save i) as [kept|] eqn:Hs.
  { injection Hrun as <- <-. exists 0%nat, []. rewrite Nat.add_0_r.
    split; [lia|]. split; [lia|]. split; [done|]. left. exists kept.
    split; [done|]. split; [done|]. intros x. destruct kept.
    - rewrite <- Hfirst. split; [intros [->|H]; auto|intros [[_ ->]|H]; auto].
    - split; [intros Hx; right; split; [done|lia]|intros [[? _]|[Hx _]]; [done|exact Hx]]. }
  destruct (recog i) as [outs|] eqn:Hr.
  2:{ injection Hrun as <- <-. exists 0%nat, []. rewrite Nat.add_0_r.
      split; [lia|]. split; [lia|]. split; [done|]. right.
      split; [done|]. split; [by left|]. split; [done|]. intros x. by rewrite Hfirst. }
  rewrite bool_decide_true in Hrun by set_solver. cbn [andb] in Hrun.
  destruct (removes i) eqn:Hrm.
  2:{ injection Hrun as <- <-. exists 0%nat, []. rewrite Nat.add_0_r.
      split; [lia|]. split; [lia|]. split; [done|]. right.
      split; [done|]. split; [right; by exists outs|]. split; [done|]. intros x. by rewrite Hfirst. }
  destruct (parse_pages save recog removes name (S i) n _) as [[tr' fs3] ok] eqn:E.
  injection Hrun as <- -> ->.
  destruct (IH _ _ _ _ E) as (j & txts & Hj & Hok & Hlen & Hend).
  exists (S j), (page_text outs :: txts).
  rewrite <- !Nat.add_succ_comm. split; [lia|]. split.
  { intros [|j'] Hj'; [rewrite Nat.add_0_r, Hs, Hr, Hrm; split; [done|]; split; [by eexists|done]|].
    rewrite <- Nat.add_succ_comm. apply Hok. lia. }
  split; [simpl; lia|].
  destruct Hend as [(kept & Hk & -> & Hfs)|(Hsv & Hwhy & -> & Hfs)].
  - left. exists kept. split; [done|]. split; [done|].
    intros x. rewrite Hfs. rewrite images_left_step. done.
  - right. split; [done|]. split; [done|]. split; [done|].
    intros x. rewrite Hfs. rewrite images_left_step. done.
Qed.

(** X5. A Pix2Text parse that stops early either could not open the
    document (nothing is done) or stops at a page [j]: every page before
    [j] has been rendered, recognized, removed and yielded, and its image
    is gone; no page after [j] is touched; and page [j] failed in one of
    two ways.  Either rendering or saving its image raised, and the image
    is left behind only if the failed save created it; or the image was
    saved and then the recognizer or [os.remove] raised, and the image
    stays in the working directory. *)
Theorem page_failure_stops_parse opens save recog removes npages file_path fs tr fs' :
  lazy_parse opens save recog removes npages file_path fs = (tr, fs', false) ->
  let name := splitext_root (split_tail file_path) in
  (opens = false /\ tr = [] /\ fs' = fs) \/
  (opens = true /\
   exists j txts, (j < npages)%nat /\
    (forall j', (j' < j)%nat -> save j' = Saved /\ is_Some (recog j') /\ removes j' = true) /\
    length txts = j /\
    ((exists kept, save j = SaveFails kept /\
       tr = concat (zip_with (fun k txt => [PSave (page_png name k); PRecognize (page_png name k);
                                           PRemove (page_png name k); PYield txt (S k)])
                             (seq 0 j) txts) /\
       (forall x, x ∈ fs' <-> (kept = true /\ x = page_png name j) \/
                              (x ∈ fs /\ forall j', (j' < j)%nat -> x <> page_png name j'))) \/
     (save j = Saved /\
      (recog j = None \/ exists outs, recog j = Some outs /\ removes j = false) /\
       tr = concat (zip_with (fun k txt => [PSave (page_png name k); PRecognize (page_png name k);
                                           PRemove (page_png name k); PYield txt (S k)])
                             (seq 0 j) txts)
            ++ [PSave (page_png name j); PRecognize (page_png name j)] /\
       page_png name j ∈ fs' /\
       (forall x, x ∈ fs' <-> x = page_png name j \/
                              (x ∈ fs /\ forall j', (j' < j)%nat -> x <> page_png name j'))))).
Proof.
  intros Hrun name. unfold lazy_parse in Hrun. destruct opens.
  2:{ left. injection Hrun as <- <-. done. }
  right. split; [done|].
  apply parse_pages_failure in Hrun as (j & txts & Hj & Hok & Hlen & Hend).
  exists j, txts. split; [done|]. split; [exact Hok|]. split; [done|].
  destruct Hend as [H|(H1 & H2 & H3 & H4)]; [by left|right].
  do 3 (split; [done|]). split; [|done]. apply H4. by left.
Qed.

Lemma page_failure_stops_parse_witness :
  let save := fun _ : nat => Saved in
  let recog := fun i : nat => if (i =? 1)%nat then None else Some [Build_out (lit "Text") (lit "B")] in
  let removes := fun _ : nat => true in
  lazy_parse true save recog removes 3 (lit "/pdfs/x.pdf") ∅
    = (fst (fst (lazy_parse true save recog removes 3 (lit "/pdfs/x.pdf") ∅)),
       snd (fst (lazy_parse true save recog removes 3 (lit "/pdfs/x.pdf") ∅)), false) /\
  exists j, (j < 3)%nat /\
    page_png (splitext_root (split_tail (lit "/pdfs/x.pdf"))) j
      ∈ snd (fst (lazy_parse true save recog removes 3 (lit "/pdfs/x.pdf") ∅)).
Proof.
  intros save recog removes.
  assert (H : lazy_parse true save recog removes 3 (lit "/pdfs/x.pdf") ∅
    = (fst (fst (lazy_parse true save recog removes 3 (lit "/pdfs/x.pdf") ∅)),
       snd (fst (lazy_parse true save recog removes 3 (lit "/pdfs/x.pdf") ∅)), false))
    by (vm_compute; reflexivity).
  split; [exact H|].
  destruct (page_failure_stops_parse true save recog removes 3 (lit "/pdfs/x.pdf") ∅ _ _ H)
    as [(Hf & _)|(_ & j & txts & Hj & _ & _ & [(kept & Hk & _)|(_ & _ & _ & Hin & _)])].
  - discriminate.
  - discriminate.
  - exists j. done.
Defined.

Section Writes.

Variable load : strategy.
Variable fs : filesystem.

Lemma writes_app tr1 tr2 : writes (tr1 ++ tr2) = writes tr1 ++ writes tr2.
Proof. induction tr1 as [|e tr1 IH]; [done|]. destruct e; simpl; by rewrite ?IH. Qed.

Lemma writes_process_pdf dev q :
  writes (process_pdf load fs true dev q).1 = writes (worker_loop load fs q).1.
Proof. by rewrite process_pdf_split. Qed.

Lemma writes_loop_ok xs :
  Forall (processed load fs) xs ->
  writes (worker_loop load fs (map Some xs)).1 = map (artifact_of load) xs.
Proof.
  induction xs as [|x xs IH]; intros Hall; [done|].
  apply Forall_cons in Hall as [(docs & Hx & Hw) Hall]. simpl. rewrite Hx, Hw.
  specialize (IH Hall). destruct (worker_loop load fs (map Some xs)) as [tr o]. simpl in *.
  unfold artifact_of at 1. rewrite Hx. by rewrite IH.
Qed.

(** How a worker's loop ends, and what it wrote. *)
Lemma worker_loop_shape q :
  exists xs rest extra,
    q = map Some xs ++ rest /\ Forall (processed load fs) xs /\
    consumed (worker_loop load fs q).1 = map Some xs ++ take 1 rest /\
    writes (worker_loop load fs q).1 = map (artifact_of load) xs ++ extra /\
    match rest with
    | [] => extra = [] /\ (worker_loop load fs q).2 = Blocked
    | None :: _ => extra = [] /\ (worker_loop load fs q).2 = Returned
    | Some x :: _ =>
        (worker_loop load fs q).2 = Crashed /\
        (load x = None /\ extra = [] \/
         exists docs, load x = Some docs /\
           (fs (artifact_path x) (Json.dumps (join_pages docs)) = WOpenFails /\ extra = [] \/
            exists n, fs (artifact_path x) (Json.dumps (join_pages docs)) = WDumpFails n /\
              extra = [(artifact_path x, take n (Json.dumps (join_pages docs)))]))
    end.
Proof.
  induction q as [|[p|] q IH].
  - exists [], [], []. done.
  - destruct (load p) as [docs|] eqn:Hp.
    2:{ exists [], (Some p :: q), []. simpl. rewrite Hp. simpl.
        do 4 (split; [done|]). split; [done|]. by left. }
    destruct (fs (artifact_path p) (Json.dumps (join_pages docs))) as [|n|] eqn:Hw.
    + exists [], (Some p :: q), []. simpl. rewrite Hp, Hw. simpl.
      do 4 (split; [done|]). split; [done|]. right. exists docs. split; [done|]. by left.
    + exists [], (Some p :: q), [(artifact_path p, take n (Json.dumps (join_pages docs)))].
      simpl. rewrite Hp, Hw. simpl.
      do 4 (split; [done|]). split; [done|]. right. exists docs. split; [done|]. right.
      by exists n.
    + destruct IH as (xs & rest & extra & -> & Hall & Hc & Hwr & Hend).
      exists (p :: xs), rest, extra. simpl. rewrite Hp, Hw.
      destruct (worker_loop load fs (map Some xs ++ rest)) as [tr o]. simpl in *.
      split; [done|]. split; [constructor; [by exists docs|done]|].
      split; [by rewrite Hc|]. split; [|done].
      unfold artifact_of at 1. rewrite Hp. by rewrite Hwr.
  - exists [], (None :: q), []. done.
Qed.

End Writes.

(** X6. A worker whose loader cannot be constructed takes nothing from its
    channel and writes nothing.  Otherwise it takes the longest run [xs] of
    items at the head of its channel that are processed to their end,
    writes their artifacts in channel order (one per item, named after the
    item, holding the JSON of its joined pages), takes the next value and
    stops there: it returns on a sentinel, waits forever on an exhausted
    channel, and dies on an item when its extraction raises (nothing
    written), when opening its artifact raises (no file created), or when
    [json.dump] raises (the artifact holds a prefix of its JSON text). *)
Theorem worker_writes (load : strategy) (fs : filesystem) (loader_ok : bool) (dev : pystr)
    (q : list (option pystr)) :
  let r := process_pdf load fs loader_ok dev q in
  (loader_ok = false -> consumed r.1 = [] /\ writes r.1 = [] /\ r.2 = Crashed) /\
  (loader_ok = true ->
   exists xs rest extra,
    q = map Some xs ++ rest /\ Forall (processed load fs) xs /\
    consumed r.1 = map Some xs ++ take 1 rest /\
    writes r.1 = map (artifact_of load) xs ++ extra /\
    match rest with
    | [] => extra = [] /\ r.2 = Blocked
    | None :: _ => extra = [] /\ r.2 = Returned
    | Some x :: _ =>
        r.2 = Crashed /\
        (load x = None /\ extra = [] \/
         exists docs, load x = Some docs /\
           (fs (artifact_path x) (Json.dumps (join_pages docs)) = WOpenFails /\ extra = [] \/
            exists n, fs (artifact_path x) (Json.dumps (join_pages docs)) = WDumpFails n /\
              extra = [(artifact_path x, take n (Json.dumps (join_pages docs)))]))
    end).
Proof.
  intros r. split.
  - intros ->. done.
  - intros ->. unfold r. rewrite consumed_process_pdf, writes_process_pdf, process_pdf_split.
    cbn [snd]. apply worker_loop_shape.
Qed.

Lemma map_zip_snd {A B C} (g : B -> C) (ds : list A) (ks : list B) :
  (length ks <= length ds)%nat -> map (fun w => g w.2) (zip ds ks) = map g ks.
Proof.
  revert ds. induction ks as [|k ks IH]; intros [|d ds] Hl; simpl in *; try done; [lia|].
  rewrite IH by lia. done.
Qed.

Lemma share_processed (load : strategy) (fs : filesystem) (N k : nat) (L : list pystr) :
  Forall (processed load fs) L -> Forall (processed load fs) (share N k 0 L).
Proof.
  rewrite !Forall_forall. intros Hall x Hx. apply share_elem in Hx as (j & Hj & _).
  apply Hall. by eapply list_elem_of_lookup_2.
Qed.

(** X7. When at least one device is given, every worker constructs its
    loader, and every selected file is processed to its end (its
    extraction returns and the directory [ocr_results] accepts its
    artifact), the workers together write exactly one artifact per
    selected file, with that file's content, and all of them return; when
    the listed names are distinct, no two workers write the same artifact
    path. *)
Theorem all_selected_files_written names exists_ (devs : list pystr) (load : strategy)
    (fs : filesystem) :
  devs <> [] -> Forall (processed load fs) (select_pdfs names exists_) ->
  match main (Some names) exists_ devs with
  | Finished _ qs ws =>
      concat (map (fun w => writes (process_pdf load fs true w.1 (default [] (qs !! w.2))).1) ws)
        ≡ₚ map (artifact_of load) (select_pdfs names exists_) /\
      Forall (fun w => (process_pdf load fs true w.1 (default [] (qs !! w.2))).2 = Returned) ws /\
      (NoDup names -> Forall (fun f => SLASH ∉ f) names ->
         NoDup (map fst (concat (map (fun w => writes (process_pdf load fs true w.1
                                                        (default [] (qs !! w.2))).1) ws))))
  | Aborted _ => False
  end.
Proof.
  intros Hdevs Hall. destruct (main_shape names exists_ devs) as [ev ->].
  set (N := length devs). set (L := select_pdfs names exists_).
  assert (HN : (1 <= N)%nat) by (destruct devs; [done|unfold N; simpl; lia]).
  assert (Hq : forall k, (k < N)%nat ->
            map (fun k => map Some (share N k 0 L) ++ [None]) (seq 0 N) !! k
            = Some (map Some (share N k 0 L) ++ [None])).
  { intros k Hk. rewrite list_lookup_fmap, lookup_seq_lt by done. done. }
  assert (Hw : forall k, (k < N)%nat ->
            writes (worker_loop load fs (map Some (share N k 0 L) ++ [None])).1
            = map (artifact_of load) (share N k 0 L)).
  { intros k Hk. rewrite worker_loop_app by (apply share_processed, Hall).
    cbn [fst]. rewrite writes_app, writes_loop_ok by (apply share_processed, Hall).
    by rewrite app_nil_r. }
  assert (Hperm : concat (map (fun w => writes (process_pdf load fs true w.1
             (default [] (map (fun k => map Some (share N k 0 L) ++ [None]) (seq 0 N) !! w.2))).1)
             (zip (rev devs) (seq 0 N)))
           ≡ₚ map (artifact_of load) L).
  { pose (G := fun k => writes (worker_loop load fs
              (default [] (map (fun k => map Some (share N k 0 L) ++ [None]) (seq 0 N) !! k))).1).
    rewrite (map_ext _ (fun w => G w.2)) by (intros w; apply writes_process_pdf).
    rewrite (map_zip_snd G) by (rewrite length_rev, length_seq; lia).
    rewrite (map_ext_in G (fun k => map (artifact_of load) (share N k 0 L))).
    2:{ intros k Hk. apply list_elem_of_In, elem_of_seq in Hk.
        unfold G. rewrite Hq by lia. simpl. apply Hw. lia. }
    rewrite <- (map_map (fun k => share N k 0 L) (map (artifact_of load))), <- concat_map.
    apply Permutation_map. apply share_perm; done. }
  split; [exact Hperm|]. split.
  - apply Forall_forall. intros [d k] Hin.
    assert (Hk : (k < N)%nat) by (by eapply main_worker_queue).
    cbn [fst snd]. rewrite Hq by done. cbn [default]. rewrite process_pdf_split. cbn [snd].
    apply (worker_loop_sentinel load fs (share N k 0 L) []). by apply share_processed.
  - intros Hnd Hs. rewrite Hperm, map_map. unfold artifact_of. cbn [fst].
    apply NoDup_ListNoDup. apply NoDup_map_NoDup_ForallPairs.
    2:{ apply NoDup_ListNoDup. by apply select_pdfs_nodup. }
    intros f g Hf Hg E.
    assert (Hsel : forall h, In h L -> exists u, (SLASH ∉ u) /\ h = path_join PDF_DIR u).
    { intros h Hh. unfold L, select_pdfs in Hh. apply filter_In in Hh as [Hh _].
      apply in_map_iff in Hh as (u & <- & Hu). apply filter_In in Hu as [Hu _].
      exists u. split; [|done]. rewrite Forall_forall in Hs. apply Hs, list_elem_of_In, Hu. }
    destruct (Hsel f Hf) as (u & Hu & ->), (Hsel g Hg) as (v & Hv & ->).
    rewrite !artifact_path_input in E by done.
    apply app_inv_head in E. apply app_inv_tail in E. by subst.
Qed.

Lemma all_selected_files_written_witness :
  let load := fun _ : pystr => Some [lit "text"] in
  let fs := fun _ _ : pystr => WOk in
  match main (Some [lit "a.pdf"; lit "b.pdf"; lit "c.txt"]) (fun _ => false) [lit "0"; lit "1"] with
  | Finished _ qs ws =>
      concat (map (fun w => writes (process_pdf load fs true w.1 (default [] (qs !! w.2))).1) ws)
        ≡ₚ map (artifact_of load) (select_pdfs [lit "a.pdf"; lit "b.pdf"; lit "c.txt"] (fun _ => false))
  | Aborted _ => False
  end.
Proof.
  intros load fs.
  pose proof (all_selected_files_written [lit "a.pdf"; lit "b.pdf"; lit "c.txt"] (fun _ => false)
                [lit "0"; lit "1"] load fs ltac:(discriminate)) as H.
  assert (Hs : Forall (processed load fs)
                 (select_pdfs [lit "a.pdf"; lit "b.pdf"; lit "c.txt"] (fun _ => false))).
  { vm_compute. repeat constructor; eexists; split; reflexivity. }
  specialize (H Hs).
  destruct (main _ _ _); [done|]. apply H.
Defined.

(** When every [open] for writing raises, a worker dies on the first item
    it takes. *)
Lemma worker_loop_open_fails (load : strategy) (fs : filesystem) x q :
  (forall a c, fs a c = WOpenFails) ->
  worker_loop load fs (Some x :: q) = ([EGet (Some x); ELoad x], Crashed).
Proof. intros Hfs. simpl. destruct (load x); [by rewrite Hfs|done]. Qed.

(** X8. When the directory [ocr_results] is missing, so that every [open]
    of an artifact raises (nothing in the program creates it), no artifact
    at all is written: a worker that receives at least one item takes only
    its first item and dies, leaving its other items and its sentinel on
    its queue; a worker that receives none takes its sentinel and returns;
    a worker whose loader cannot be constructed takes nothing. *)
Theorem missing_results_dir_writes_nothing names exists_ (devs : list pystr) (load : strategy)
    (fs : filesystem) (loader_ok : pystr -> bool) :
  (forall a c, fs a c = WOpenFails) ->
  match main (Some names) exists_ devs with
  | Finished _ qs ws =>
      forall d k, (d, k) ∈ ws ->
      exists items, qs !! k = Some (map Some items ++ [None]) /\
        let r := process_pdf load fs (loader_ok d) d (map Some items ++ [None]) in
        writes r.1 = [] /\
        (loader_ok d = false -> consumed r.1 = [] /\ r.2 = Crashed) /\
        (loader_ok d = true ->
           match items with
           | [] => consumed r.1 = [None] /\ r.2 = Returned
           | x :: _ => consumed r.1 = [Some x] /\ r.2 = Crashed
           end)
  | Aborted _ => False
  end.
Proof.
  intros Hfs. destruct (main_shape names exists_ devs) as [ev ->].
  intros d k Hin. apply main_worker_queue in Hin.
  eexists. split.
  { rewrite list_lookup_fmap, lookup_seq_lt by done. reflexivity. }
  cbv zeta. change (0 + k)%nat with k. destruct (loader_ok d).
  - rewrite process_pdf_split. cbn [fst snd].
    destruct (share (length devs) k 0 (select_pdfs names exists_)) as [|x xs]; simpl.
    + split; [done|]. split; [discriminate|]. done.
    + destruct (load x); [rewrite Hfs|]; simpl; split; try done; split; done.
  - simpl. split; [done|]. split; [done|]. discriminate.
Qed.

Lemma missing_results_dir_writes_nothing_witness :
  let load := fun _ : pystr => Some [lit "text"] in
  let fs := fun _ _ : pystr => WOpenFails in
  (forall a c, fs a c = WOpenFails) /\
  match main (Some [lit "a.pdf"; lit "b.pdf"]) (fun _ => false) [lit "0"] with
  | Finished _ qs ws =>
      forall d k, (d, k) ∈ ws ->
      exists items, qs !! k = Some (map Some items ++ [None]) /\
        writes (process_pdf load fs true d (map Some items ++ [None])).1 = []
  | Aborted _ => False
  end.
Proof.
  intros load fs.
  assert (Hfs : forall a c, fs a c = WOpenFails) by reflexivity.
  split; [exact Hfs|].
  pose proof (missing_results_dir_writes_nothing [lit "a.pdf"; lit "b.pdf"] (fun _ => false)
                [lit "0"] load fs (fun _ => true) Hfs) as H.
  destruct (main _ _ _); [done|].
  intros d k Hin. destruct (H d k Hin) as (items & Hq & Hr).
  exists items. split; [exact Hq|]. exact (proj1 Hr).
Defined.

Section CommandLine.

Lemma split_sep_length (sep : Z) (s : pystr) : length (split_sep sep s) = S (count_char sep s).
Proof.
  induction s as [|c r IH]; [done|]. unfold count_char in *. simpl.
  destruct (Z.eqb_spec c sep) as [->|Hne]; simpl.
  - by rewrite IH.
  - destruct (split_sep sep r) as [|w ws] eqn:E; simpl in IH; [lia|]. simpl. lia.
Qed.

Variable py_int : pystr -> option Z.

Lemma parse_fields_ok (fields : list pystr) :
  (forall item, item ∈ fields -> is_Some (py_int item)) ->
  exists zs, Forall2 (fun f z => py_int f = Some z) fields zs /\
    fold_right (fun item acc =>
                  match py_int item, acc with
                  | Some z, Some l => Some (str_int z :: l)
                  | _, _ => None
                  end) (Some []) fields = Some (map str_int zs).
Proof.
  induction fields as [|f fields IH]; intros Hok; [by exists []|].
  destruct (Hok f ltac:(left)) as [z Hz].
  destruct IH as (zs & Hzs & Hf); [intros item Hi; apply Hok; by right|].
  exists (z :: zs). split; [by constructor|]. simpl. by rewrite Hz, Hf.
Qed.

Lemma parse_fields_bad (fields : list pystr) item :
  item ∈ fields -> py_int item = None ->
  fold_right (fun item acc =>
                match py_int item, acc with
                | Some z, Some l => Some (str_int z :: l)
                | _, _ => None
                end) (Some []) fields = None.
Proof.
  induction fields as [|f fields IH]; intros Hin Hbad; [set_solver|].
  apply elem_of_cons in Hin as [->|Hin]; simpl.
  - by rewrite Hbad.
  - rewrite IH by done. by destruct (py_int f).
Qed.

End CommandLine.

(** X9. Once the input directory is listed, the program goes one of three
    ways: without [--on] it stops on [len(None)]; when [int()] rejects one
    of the comma-separated fields of [--on] (Python's [int()] rejects an
    empty field, as in [--on 0,]) argparse stops it with a usage error; otherwise it starts
    one worker per field, so at least one, bound to [str(int(field))] taken
    from the end of the list, with one queue each.  In the first two cases
    no queue is created and no worker started. *)
Theorem program_outcomes names exists_ (py_int : pystr -> option Z) (on : option pystr) :
  match program (Some names) exists_ py_int on with
  | LenTypeError => on = None
  | UsageError => exists s item, on = Some s /\ item ∈ split_sep 44 s /\ py_int item = None
  | Ran (Finished _ qs ws) =>
      exists s zs, on = Some s /\ Forall2 (fun f z => py_int f = Some z) (split_sep 44 s) zs /\
        length zs = S (count_char 44 s) /\ length qs = length zs /\
        ws = zip (rev (map str_int zs)) (seq 0 (length zs))
  | _ => False
  end.
Proof.
  unfold program. destruct on as [s|]; [|done].
  destruct (decide (Forall (fun item => is_Some (py_int item)) (split_sep 44 s))) as [Hok|Hbad].
  - rewrite Forall_forall in Hok. destruct (parse_fields_ok py_int (split_sep 44 s) Hok) as (zs & Hzs & Hf).
    unfold parse_on. rewrite Hf.
    destruct (main_shape names exists_ (map str_int zs)) as [ev ->].
    exists s, zs. split; [done|]. split; [done|].
    split; [rewrite <- (Forall2_length _ _ _ Hzs); apply split_sep_length|].
    rewrite !length_map, !length_seq. split; done.
  - assert (exists item, item ∈ split_sep 44 s /\ py_int item = None) as (item & Hin & Hn).
    { apply not_Forall_Exists, Exists_exists in Hbad as (item & Hin & Hn); [|apply _].
      exists item. split; [done|]. by apply eq_None_not_Some. }
    unfold parse_on. rewrite (parse_fields_bad py_int _ item) by done.
    exists s, item. done.
Qed.

Lemma digits_value_nonneg (t : pystr) acc :
  0 <= acc -> forallb is_digit t = true -> 0 <= fold_left (fun a c => 10 * a + (c - 48)) t acc.
Proof.
  revert acc. induction t as [|c t IH]; intros acc Hacc Ht; [done|].
  simpl in Ht. apply andb_true_iff in Ht as [Hc Ht].
  unfold is_digit in Hc. apply andb_true_iff in Hc as [H1 H2]. apply Z.leb_le in H1, H2.
  simpl. apply IH; [lia|done].
Qed.

(** X10. When every field of [--on] is a non-empty string of ASCII digits
    (and [int] reads such a string as its decimal value), each device
    identifier is the field's value written back in decimal without
    leading zeros: [--on 007] binds device [7] and [--on 0,00] binds
    device [0] twice; the identifiers are not de-duplicated. *)
Theorem device_ids_canonical (py_int : pystr -> option Z) (s : pystr) :
  (forall t, t <> [] -> forallb is_digit t = true -> py_int t = Some (digits_value t)) ->
  forallb (fun f => negb (bool_decide (f = [])) && forallb is_digit f) (split_sep 44 s) = true ->
  exists devices, parse_on py_int s = Some devices /\
    Forall2 (fun f d => digits_value d = digits_value f /\ forallb is_digit d = true /\
                        (d = lit "0" \/ head d <> Some 48))
            (split_sep 44 s) devices.
Proof.
  intros Hint Hfields.
  assert (Hok : forall item, item ∈ split_sep 44 s -> is_Some (py_int item)).
  { intros item Hin. apply list_elem_of_In in Hin. rewrite forallb_forall in Hfields.
    apply Hfields, andb_true_iff in Hin as [Hne Hd].
    rewrite Hint; [by eexists| |done]. intros ->. done. }
  destruct (parse_fields_ok py_int _ Hok) as (zs & Hzs & Hf).
  exists (map str_int zs). unfold parse_on. rewrite Hf. split; [done|].
  apply Forall2_fmap_r. clear Hf Hok. revert Hfields.
  induction Hzs as [|f z fields zs Hfz Hrest IH]; intros Hfields; [constructor|].
  cbn [forallb] in Hfields. apply andb_true_iff in Hfields as [Hf_in Hfields].
  constructor; [|by apply IH]. cbn [fmap].
  apply andb_true_iff in Hf_in as [Hne Hd].
  rewrite Hint in Hfz; [|intros ->; vm_compute in Hne; discriminate|done].
  injection Hfz as <-. unfold compose.
  assert (Hnn : 0 <= digits_value f) by (apply digits_value_nonneg; [lia|done]).
  unfold str_int. destruct (Z.ltb_spec (digits_value f) 0); [lia|].
  destruct (str_nat_spec (Z.to_nat (digits_value f))) as (_ & Hdig & Hv & Hh).
  split; [rewrite Hv; lia|]. split; [done|].
  destruct Hh as [H0|H0]; [left; rewrite H0; reflexivity|by right].
Qed.

Lemma device_ids_canonical_witness :
  exists devices,
    parse_on (fun t => match t with [] => None | _ => Some (digits_value t) end) (lit "0,007")
    = Some devices.
Proof.
  destruct (device_ids_canonical (fun t => match t with [] => None | _ => Some (digits_value t) end)
              (lit "0,007")) as (devices & Hd & _).
  - intros t Ht _. destruct t; [congruence|reflexivity].
  - vm_compute. reflexivity.
  - by exists devices.
Defined.

Section Dicts.

Lemma dict_get_set k k' v (d : pydict) :
  dict_get k (dict_set k' v d) = if bool_decide (k = k') then Some v else dict_get k d.
Proof.
  induction d as [|[k0 v0] d IH]; simpl; [done|].
  destruct (decide (k' = k0)) as [<-|Hne].
  - rewrite (bool_decide_true (k' = k')) by done. simpl. by destruct (bool_decide (k = k')).
  - rewrite (bool_decide_false (k' = k0)) by done. simpl. rewrite IH.
    destruct (decide (k = k0)) as [->|Hk0].
    + rewrite (bool_decide_true (k0 = k0)), (bool_decide_false (k0 = k')) by congruence. done.
    + rewrite (bool_decide_false (k = k0)) by done. done.
Qed.

Lemma dict_get_app k (l1 l2 : pydict) :
  dict_get k (l1 ++ l2) = match dict_get k l1 with Some v => Some v | None => dict_get k l2 end.
Proof.
  induction l1 as [|[k0 v0] l1 IH]; simpl; [done|]. case_bool_decide; [done|]. apply IH.
Qed.

Lemma dict_get_fold_set k (kw d0 : pydict) :
  dict_get k (fold_left (fun d kv => dict_set kv.1 kv.2 d) kw d0)
  = match dict_get k (rev kw) with Some v => Some v | None => dict_get k d0 end.
Proof.
  revert d0. induction kw as [|[k1 v1] kw IH]; intros d0; simpl; [done|].
  rewrite IH, dict_get_app, dict_get_set. simpl.
  destruct (dict_get k (rev kw)); [done|]. by case_bool_decide.
Qed.

Lemma dict_set_keys k v (d : pydict) x :
  x ∈ map fst (dict_set k v d) <-> x = k \/ x ∈ map fst d.
Proof.
  induction d as [|[k0 v0] d IH]; simpl; [set_solver|].
  case_bool_decide; subst; simpl; rewrite ?elem_of_cons, ?IH; naive_solver.
Qed.

Lemma dict_set_nodup k v (d : pydict) :
  NoDup (map fst d) -> NoDup (map fst (dict_set k v d)).
Proof.
  induction d as [|[k0 v0] d IH]; intros Hnd; simpl; [by constructor; [set_solver|constructor]|].
  simpl in Hnd. apply NoDup_cons in Hnd as [Hk0 Hnd].
  case_bool_decide; subst; simpl; constructor; try done.
  - rewrite dict_set_keys. intros [->|Hin]; done.
  - by apply IH.
Qed.

Lemma dict_get_rev k (d : pydict) : NoDup (map fst d) -> dict_get k (rev d) = dict_get k d.
Proof.
  induction d as [|[k0 v0] d IH]; intros Hnd; simpl; [done|].
  simpl in Hnd. apply NoDup_cons in Hnd as [Hk0 Hnd].
  rewrite dict_get_app, IH by done. simpl.
  case_bool_decide as E; [subst k0|by destruct (dict_get k d)].
  destruct (dict_get k d) eqn:Hg; [|done].
  exfalso. apply Hk0. clear -Hg. induction d as [|[k1 v1] d IH]; simpl in *; [done|].
  case_bool_decide; subst; [left|right; by apply IH].
Qed.

Lemma dict_get_none k (d : pydict) : k ∉ map fst d -> dict_get k d = None.
Proof.
  induction d as [|[k0 v0] d IH]; intros Hk; simpl; [done|].
  simpl in Hk. apply not_elem_of_cons in Hk as [Hk0 Hk].
  case_bool_decide; [done|]. by apply IH.
Qed.

Lemma meta_filter_fold k (m : pydict) (ks : list pystr) (acc : pydict) :
  NoDup (map fst acc) ->
  NoDup (map fst (fold_left (fun d k => match dict_get k m with
                                        | Some v => if str_or_int v then dict_set k v d else d
                                        | None => d
                                        end) ks acc)) /\
  dict_get k (fold_left (fun d k => match dict_get k m with
                                    | Some v => if str_or_int v then dict_set k v d else d
                                    | None => d
                                    end) ks acc)
  = if bool_decide (k ∈ ks)
    then match dict_get k m with
         | Some v => if str_or_int v then Some v else dict_get k acc
         | None => dict_get k acc
         end
    else dict_get k acc.
Proof.
  revert acc. induction ks as [|k1 ks IH]; intros acc Hacc; simpl.
  - split; done.
  - assert (Hstep : NoDup (map fst (match dict_get k1 m with
                                     | Some v => if str_or_int v then dict_set k1 v acc else acc
                                     | None => acc end))).
    { destruct (dict_get k1 m); [destruct (str_or_int p)|]; try done. by apply dict_set_nodup. }
    destruct (IH _ Hstep) as [Hnd Hget]. split; [done|]. rewrite Hget.
    assert (Hk1 : dict_get k (match dict_get k1 m with
                              | Some v => if str_or_int v then dict_set k1 v acc else acc
                              | None => acc end)
                  = if bool_decide (k = k1)
                    then match dict_get k m with
                         | Some v => if str_or_int v then Some v else dict_get k acc
                         | None => dict_get k acc
                         end
                    else dict_get k acc).
    { destruct (decide (k = k1)) as [<-|Hne].
      - rewrite (bool_decide_true (k = k)) by done.
        destruct (dict_get k m) as [v|]; [|done].
        destruct (str_or_int v); [|done]. rewrite dict_get_set. by rewrite bool_decide_true.
      - rewrite (bool_decide_false (k = k1)) by done.
        destruct (dict_get k1 m) as [v|]; [|done]. destruct (str_or_int v); [|done].
        rewrite dict_get_set. by rewrite bool_decide_false. }
    rewrite Hk1.
    destruct (decide (k = k1)) as [->|Hne].
    + rewrite (bool_decide_true (k1 ∈ k1 :: ks)) by set_solver.
      rewrite (bool_decide_true (k1 = k1)) by done.
      destruct (bool_decide (k1 ∈ ks)); [|done].
      destruct (dict_get k1 m) as [v|]; [|done]. by destruct (str_or_int v).
    + rewrite (bool_decide_false (k = k1)) by done.
      destruct (decide (k ∈ ks)) as [Hin|Hin].
      * rewrite !bool_decide_true by set_solver. done.
      * rewrite !bool_decide_false by set_solver. done.
Qed.

Lemma meta_filter_get k (m : pydict) :
  NoDup (map fst (meta_filter m)) /\
  dict_get k (meta_filter m)
  = match dict_get k m with Some v => if str_or_int v then Some v else None | None => None end.
Proof.
  unfold meta_filter. destruct (meta_filter_fold k m (map fst m) [] ltac:(constructor)) as [Hnd Hget].
  split; [done|]. rewrite Hget. case_bool_decide as Hin.
  - simpl. destruct (dict_get k m) as [v|]; [|done]. by destruct (str_or_int v).
  - by rewrite (dict_get_none k m).
Qed.

Lemma merged_metadata_get source num total (doc_meta : pydict) k :
  dict_get k (merged_metadata source num total doc_meta)
  = match dict_get k doc_meta with
    | Some v => if str_or_int v then Some v
                else dict_get k [(lit "source", source); (lit "file_path", source);
                                 (lit "page", VInt num); (lit "total_pages", VInt total)]
    | None => dict_get k [(lit "source", source); (lit "file_path", source);
                          (lit "page", VInt num); (lit "total_pages", VInt total)]
    end.
Proof.
  unfold merged_metadata, dict_kw. rewrite dict_get_fold_set.
  destruct (meta_filter_get k doc_meta) as [Hnd Hget].
  rewrite dict_get_rev, Hget by done.
  assert (Hbase : dict_of [(lit "source", source); (lit "file_path", source);
                           (lit "page", VInt num); (lit "total_pages", VInt total)]
                  = [(lit "source", source); (lit "file_path", source);
                     (lit "page", VInt num); (lit "total_pages", VInt total)]) by reflexivity.
  rewrite Hbase. destruct (dict_get k doc_meta) as [v|]; [|done]. by destruct (str_or_int v).
Qed.

Lemma eager_docs_fold {P} (make : P -> option document) (pages : list P) l :
  fold_right (fun p acc => match make p, acc with
                           | Some d, Some l => Some (d :: l)
                           | _, _ => None
                           end) (Some []) pages = Some l ->
  Forall2 (fun p d => make p = Some d) pages l.
Proof.
  revert l. induction pages as [|p pages IH]; intros l Hf; simpl in Hf.
  - injection Hf as <-. constructor.
  - destruct (make p) eqn:Hp; [|done].
    destruct (fold_right _ _ pages) eqn:E; [|done]. injection Hf as <-.
    constructor; [done|]. by apply IH.
Qed.

Lemma eager_docs_lookup {P} (make : P -> option document) (pages : list P) i d :
  (eager_docs make pages).1 !! i = Some d -> exists p, pages !! i = Some p /\ make p = Some d.
Proof.
  unfold eager_docs. destruct (fold_right _ _ pages) as [l|] eqn:E; simpl; [|done].
  intros Hi. apply eager_docs_fold in E.
  destruct (Forall2_lookup_r _ _ _ _ _ E Hi) as (p & Hp & Hm). by exists p.
Qed.

Lemma eager_docs_fail {P} (make : P -> option document) (pages : list P) p :
  p ∈ pages -> make p = None -> eager_docs make pages = ([], false).
Proof.
  intros Hin Hp. unfold eager_docs.
  assert (fold_right (fun p acc => match make p, acc with
                                   | Some d, Some l => Some (d :: l)
                                   | _, _ => None
                                   end) (Some []) pages = None) as ->; [|done].
  induction pages as [|q pages IH]; [set_solver|].
  apply elem_of_cons in Hin as [->|Hin]; simpl.
  - by rewrite Hp.
  - rewrite IH by done. by destruct (make q).
Qed.

Lemma eager_docs_ok {P} (make : P -> option document) (pages : list P) (docs : list document) :
  Forall2 (fun p d => make p = Some d) pages docs -> eager_docs make pages = (docs, true).
Proof.
  unfold eager_docs. intros H.
  assert (fold_right (fun p acc => match make p, acc with
                                   | Some d, Some l => Some (d :: l)
                                   | _, _ => None
                                   end) (Some []) pages = Some docs) as ->; [|done].
  induction H as [|p d pages docs Hp H IH]; simpl; [done|]. by rewrite Hp, IH.
Qed.

End Dicts.

(** X11. Every Document of [PyMuPDFParser] and [PDFPlumberParser] holds
    the text of its page, and its metadata maps a key to the document
    metadata's value when that value is a [str] or an [int] (so such an
    entry overrides [source], [file_path], [page] or [total_pages]);
    otherwise to the standard entry; entries of any other type ([None],
    [bool], ...) are dropped. *)
Theorem document_metadata_override (source : pyval) (pages : list page) (doc_meta : pydict)
    (i : nat) (d : document) :
  (pymupdf_parse source pages doc_meta).1 !! i = Some d \/
  (pdfplumber_parse source pages doc_meta).1 !! i = Some d ->
  exists p, pages !! i = Some p /\ get_text p = Some (page_content d) /\
  forall k, dict_get k (metadata d)
  = match dict_get k doc_meta with
    | Some v => if str_or_int v then Some v
                else dict_get k [(lit "source", source); (lit "file_path", source);
                                 (lit "page", VInt (number p));
                                 (lit "total_pages", VInt (Z.of_nat (length pages)))]
    | None => dict_get k [(lit "source", source); (lit "file_path", source);
                          (lit "page", VInt (number p));
                          (lit "total_pages", VInt (Z.of_nat (length pages)))]
    end.
Proof.
  intros Hi.
  assert (Hd : exists p, pages !! i = Some p /\ get_text p = Some (page_content d) /\
             metadata d = merged_metadata source (number p) (Z.of_nat (length pages)) doc_meta).
  { destruct Hi as [Hi|Hi]; apply eager_docs_lookup in Hi as (p & Hp & Hm);
      exists p; split; try done; destruct (get_text p) as [t|]; try discriminate;
      injection Hm as <-; done. }
  destruct Hd as (p & Hp & Ht & Hm). exists p. do 2 (split; [done|]).
  intros k. rewrite Hm. apply merged_metadata_get.
Qed.

Lemma document_metadata_override_witness :
  let pages := [Build_page 0 (Some (lit "hello"))] in
  let meta := [(lit "page", VStr (lit "cover")); (lit "encryption", VNone)] in
  exists p, pages !! 0%nat = Some p /\
  dict_get (lit "page") (metadata {| page_content := lit "hello";
                                     metadata := merged_metadata VNone 0 1 meta |})
  = Some (VStr (lit "cover")).
Proof.
  intros pages meta.
  destruct (document_metadata_override VNone pages meta 0
              {| page_content := lit "hello"; metadata := merged_metadata VNone 0 1 meta |})
    as (p & Hp & _ & Hk).
  - left. vm_compute. reflexivity.
  - exists p. split; [done|]. rewrite Hk. vm_compute. reflexivity.
Defined.

(** X12. [PyPDFParser], [PyMuPDFParser] and [PDFPlumberParser] build the
    whole list of Documents before yielding: when the text extraction of
    any page raises, no Document at all is yielded.  When every page
    extracts, [PyPDFParser] yields one Document per page, in page order,
    with ["page"] the 0-based page index. *)
Theorem eager_parsers_all_or_nothing (source : pyval) :
  (forall extract i, extract !! i = Some None -> pypdf_parse source extract = ([], false)) /\
  (forall texts : list pystr,
     pypdf_parse source (map Some texts)
     = (zip_with (fun n t => {| page_content := t;
                                metadata := dict_of [(lit "source", source);
                                                     (lit "page", VInt (Z.of_nat n))] |})
                 (seq 0 (length texts)) texts, true)) /\
  (forall pages doc_meta p, p ∈ pages -> get_text p = None ->
     pymupdf_parse source pages doc_meta = ([], false) /\
     pdfplumber_parse source pages doc_meta = ([], false)).
Proof.
  split; [|split].
  - intros extract i Hi. unfold pypdf_parse.
    eapply (eager_docs_fail _ _ (i, None)); [|done].
    apply list_elem_of_lookup. exists i. rewrite lookup_zip_with, lookup_seq_lt.
    + by rewrite Hi.
    + by apply lookup_lt_Some in Hi.
  - intros texts. unfold pypdf_parse. apply eager_docs_ok.
    rewrite length_map. generalize 0%nat as j.
    induction texts as [|t texts IH]; intros j; simpl; constructor; [done|]. apply IH.
  - intros pages doc_meta p Hin Hp. unfold pymupdf_parse, pdfplumber_parse.
    split; eapply eager_docs_fail; try exact Hin; by rewrite Hp.
Qed.

Lemma eager_parsers_all_or_nothing_witness :
  pypdf_parse VNone [Some (lit "a"); None] = ([], false).
Proof.
  apply (proj1 (eager_parsers_all_or_nothing VNone) [Some (lit "a"); None] 1%nat).
  reflexivity.
Defined.

Lemma pdfium_loop_spec source get_page tp txt n : forall i,
  exists m docs tail,
    (m <= n)%nat /\
    (pdfium_loop source get_page tp txt i n).1
      = concat (zip_with (fun k d => [RPage k; RTextPage k; RCloseTextPage k; RClosePage k; RYield d])
                         (seq i m) docs) ++ tail /\
    Forall2 (fun k d => get_page k = true /\ tp k = true /\ txt k = Some (page_content d) /\
                        metadata d = dict_of [(lit "source", source); (lit "page", VInt (Z.of_nat k))])
            (seq i m) docs /\
    ((pdfium_loop source get_page tp txt i n).2 = true /\ m = n /\ tail = [] \/
     (pdfium_loop source get_page tp txt i n).2 = false /\ (m < n)%nat /\
     (get_page (i + m)%nat = false /\ tail = [] \/
      get_page (i + m)%nat = true /\ tp (i + m)%nat = false /\ tail = [RPage (i + m)] \/
      get_page (i + m)%nat = true /\ tp (i + m)%nat = true /\ txt (i + m)%nat = None /\
        tail = [RPage (i + m); RTextPage (i + m)])).
Proof.
  induction n as [|n IH]; intros i; simpl.
  - exists 0%nat, [], []. split; [lia|]. split; [done|]. split; [constructor|]. by left.
  - destruct (get_page i) eqn:Hg.
    2:{ exists 0%nat, [], []. rewrite Nat.add_0_r.
        split; [lia|]. split; [done|]. split; [constructor|]. right. split; [done|].
        split; [lia|]. by left. }
    destruct (tp i) eqn:Htp.
    + destruct (txt i) as [content|] eqn:Htx.
      * destruct (IH (S i)) as (m & docs & tail & Hm & Htr & Hdocs & Hend).
        destruct (pdfium_loop source get_page tp txt (S i) n) as [tr ok]. simpl in *.
        exists (S m), ({| page_content := content;
                          metadata := dict_of [(lit "source", source);
                                               (lit "page", VInt (Z.of_nat i))] |} :: docs), tail.
        split; [lia|]. split; [by rewrite Htr|]. split; [by constructor|].
        rewrite <- Nat.add_succ_comm. destruct Hend as [(-> & -> & ->)|(-> & Hlt & Ht)].
        -- by left.
        -- right. split; [done|]. split; [lia|]. done.
      * exists 0%nat, [], [RPage i; RTextPage i]. rewrite Nat.add_0_r.
        split; [lia|]. split; [done|]. split; [constructor|]. right. split; [done|].
        split; [lia|]. by right; right.
    + exists 0%nat, [], [RPage i]. rewrite Nat.add_0_r.
      split; [lia|]. split; [done|]. split; [constructor|]. right. split; [done|].
      split; [lia|]. by right; left.
Qed.

(** X13. [PyPDFium2Parser] opens the reader first and closes it last,
    whether or not a page fails; each page's text page and page are closed
    before its Document is yielded.  When page [m] cannot be loaded, or
    [get_textpage] or [get_text_range] raises on it, the Documents of the
    pages before [m] have been yielded, the handles already opened for page
    [m] stay open, and no later page is touched.  If the reader cannot be
    opened, nothing is done. *)
Theorem pdfium_closes_handles (source : pyval) (get_page tp : nat -> bool)
    (txt : nat -> option pystr) (n : nat) :
  pdfium_parse source false get_page tp txt n = ([], false) /\
  exists m docs tail,
    (m <= n)%nat /\
    (pdfium_parse source true get_page tp txt n).1
      = ROpenReader
        :: concat (zip_with (fun k d => [RPage k; RTextPage k; RCloseTextPage k; RClosePage k; RYield d])
                            (seq 0 m) docs) ++ tail ++ [RCloseReader] /\
    Forall2 (fun k d => get_page k = true /\ tp k = true /\ txt k = Some (page_content d) /\
                        metadata d = dict_of [(lit "source", source); (lit "page", VInt (Z.of_nat k))])
            (seq 0 m) docs /\
    ((pdfium_parse source true get_page tp txt n).2 = true /\ m = n /\ tail = [] \/
     (pdfium_parse source true get_page tp txt n).2 = false /\ (m < n)%nat /\
     (get_page m = false /\ tail = [] \/
      get_page m = true /\ tp m = false /\ tail = [RPage m] \/
      get_page m = true /\ tp m = true /\ txt m = None /\ tail = [RPage m; RTextPage m])).
Proof.
  split; [done|].
  destruct (pdfium_loop_spec source get_page tp txt n 0) as (m & docs & tail & Hm & Htr & Hdocs & Hend).
  exists m, docs, tail. unfold pdfium_parse.
  destruct (pdfium_loop source get_page tp txt 0 n) as [tr ok]. simpl in *.
  split; [done|]. split; [by rewrite Htr, <- app_assoc|]. split; [done|]. exact Hend.
Qed.
